(** * Window search of [exp_unc.py]: minimal standard deviation window

    A shallow embedding of [find_min_std_window] (src/exp_unc.py, lines
    14-104) together with the properties its specification states.

    Numbers.  The program computes on float64.  Here finite values are exact
    rationals ([Q]), a missing (NaN) cell of a channel is [None], and the
    values a standard deviation can take are kept symbolically in [fval]:
    NaN, the sentinel [float('inf')], and [Sqrt v], the square root of a
    rational variance [v].  Square root is monotone, so [Sqrt x < Sqrt y]
    is decided by [x < y]; rounding is not modelled.

    Data.  A data frame is its time column ['X_Value'], whose cells are all
    numbers, and its named value columns; [len(df)] is the length of the
    time column.  The default integer index is assumed, so a row's label is
    its position.

    Rounding.  What the exact model decides by exact arithmetic the program
    decides on rounded values, so the properties of the scan itself (which
    window is returned, when no window is found, when [.index[-1]] raises)
    are stated a second time and proved over any arithmetic: the search
    with its float64 operations, [Series.std()] and [np.arange] as the
    fields of a record [arith], NaN, infinities and the errors of
    [np.arange] included.  The exact model is the instance [exact] of that
    search ([exact_is_instance]). *)

From Stdlib Require Import String List ZArith QArith Qabs Qround Lia Lqa Bool Sorted.
Import ListNotations.
Local Open Scope Q_scope.

(** ** Numbers *)

Inductive fval : Type :=
| NaN
| Inf
| Sqrt (v : Q).

(** [a > b] on rationals, as a boolean. *)
Definition Qgt_bool (a b : Q) : bool := negb (Qle_bool a b).

(** [a < b] on float values: every comparison with NaN is false. *)
Definition fval_ltb (a b : fval) : bool :=
  match a, b with
  | Sqrt x, Sqrt y => Qgt_bool y x
  | Sqrt _, Inf => true
  | _, _ => false
  end.

(** [a <= b] on float values. *)
Definition fval_leb (a b : fval) : bool :=
  match a, b with
  | Sqrt x, Sqrt y => Qle_bool x y
  | Sqrt _, Inf => true
  | Inf, Inf => true
  | _, _ => false
  end.

(** [a == float('inf')]. *)
Definition is_inf (a : fval) : bool :=
  match a with Inf => true | _ => false end.

(** Numeric equality of float values (NaN is related to itself here: the
    relation compares what was computed, it is not the program's [==]). *)
Definition fval_eq (a b : fval) : Prop :=
  match a, b with
  | NaN, NaN => True
  | Inf, Inf => True
  | Sqrt x, Sqrt y => x == y
  | _, _ => False
  end.

(** ** Errors *)

(** The three [ValueError]s of the function, named as the specification
    names them, and the [IndexError] of [.index[-1]] on an empty index. *)
Inductive error : Type :=
| UnknownChannel
| InvalidRange
| NoValidWindow
| IndexError.

Inductive result (A : Type) : Type :=
| Ok (a : A)
| Err (e : error).

Arguments Ok {A} a.
Arguments Err {A} e.

(** [for x in xs: st = body st x], stopping at the first exception. *)
Fixpoint for_each {A S : Type} (xs : list A) (body : S -> A -> result S)
  (st : S) : result S :=
  match xs with
  | [] => Ok st
  | x :: xs' =>
      match body st x with
      | Ok st' => for_each xs' body st'
      | Err e => Err e
      end
  end.

(** ** The data frame *)

(** The time column ['X_Value'] and the named value columns; a cell of a
    value column is a number or missing. *)
Record DataFrame : Type := {
  X_Value : list Q;
  channels : list (string * list (option Q))
}.

(** [df.columns] *)
Definition columns (df : DataFrame) : list string :=
  "X_Value"%string :: map fst (channels df).

Fixpoint lookup (name : string) (cs : list (string * list (option Q)))
  : option (list (option Q)) :=
  match cs with
  | [] => None
  | (k, c) :: cs' => if String.eqb name k then Some c else lookup name cs'
  end.

(** [df[name]], [None] when [name not in df.columns]. *)
Definition column (df : DataFrame) (name : string) : option (list (option Q)) :=
  if String.eqb name "X_Value" then Some (map Some (X_Value df))
  else lookup name (channels df).

(** [len(df)] *)
Definition len (df : DataFrame) : nat := length (X_Value df).

(** [range(n)] *)
Definition range (n : nat) : list nat := seq 0 n.

(** [s.iloc[i:j]] *)
Definition iloc {A : Type} (s : list A) (i j : nat) : list A :=
  firstn (j - i) (skipn i s).

(** [df[df['X_Value'] <= end_time].index]: the labels of the rows whose time
    is at most [end_time], in row order. *)
Definition index_le (time : list Q) (end_time : Q) : list nat :=
  filter (fun j => Qle_bool (nth j time 0) end_time) (seq 0 (length time)).

(** [ix[-1]], an [IndexError] on the empty index. *)
Definition last_label (ix : list nat) : result nat :=
  match rev ix with
  | [] => Err IndexError
  | j :: _ => Ok j
  end.

(** ** [Series.std()] *)

Definition dropna (w : list (option Q)) : list Q :=
  flat_map (fun c => match c with Some x => [x] | None => [] end) w.

Definition Qsum (xs : list Q) : Q := fold_right Qplus 0 xs.

(** pandas' [Series.std()] with its defaults [skipna=True], [ddof=1]:
    missing cells are dropped, the result is NaN unless more than [ddof]
    values remain, else the square root of the sum of the squared
    deviations from the mean over [count - ddof]. *)
Definition std (w : list (option Q)) : fval :=
  let values := dropna w in
  let count := Z.of_nat (length values) in
  let d := (count - 1)%Z in
  if (d <=? 0)%Z then NaN
  else
    let avg := Qsum values / inject_Z count in
    let sqr := Qsum (map (fun x => (avg - x) * (avg - x)) values) in
    Sqrt (sqr / inject_Z d).

(** [np.arange(start, stop, step)]: [ceil((stop - start) / step)] values
    [start + k * step]. *)
Definition arange (start stop step : Q) : list Q :=
  map (fun k => start + inject_Z (Z.of_nat k) * step)
      (seq 0 (Z.to_nat (Qceiling ((stop - start) / step)))).

(** ** The search *)

(** The four locals [min_std], [best_start_idx], [best_end_idx],
    [best_window_size] the loops update. *)
Record best : Type := {
  min_std : fval;
  best_start_idx : nat;
  best_end_idx : nat;
  best_window_size : Q
}.

(** Lines 35-38. *)
Definition initial : best :=
  {| min_std := Inf; best_start_idx := 0; best_end_idx := 0;
     best_window_size := 0 |}.

(** Lines 46-69, the body of the loop over [i] in the fixed-size branch. *)
Definition fixed_body (df : DataFrame) (col : list (option Q))
  (window_size : Q) (st : best) (i : nat) : result best :=
  let start_time := nth i (X_Value df) 0 in
  let end_time := start_time + window_size in
  match last_label (index_le (X_Value df) end_time) with
  | Err e => Err e
  | Ok end_idx =>
      if (Z.of_nat end_idx - Z.of_nat i <? 2)%Z then Ok st
      else
        let window := iloc col i (end_idx + 1) in
        let current_std := std window in
        let actual_window_size := nth end_idx (X_Value df) 0 - start_time in
        if Qgt_bool (Qabs (actual_window_size - window_size))
                    (window_size * 0.01)
        then Ok st
        else if fval_ltb current_std (min_std st)
        then Ok {| min_std := current_std; best_start_idx := i;
                   best_end_idx := end_idx; best_window_size := window_size |}
        else Ok st
  end.

(** Lines 41-69. *)
Definition fixed_branch (df : DataFrame) (col : list (option Q))
  (min_window_size : Q) (st : best) : result best :=
  let window_size := min_window_size in
  for_each (range (len df)) (fixed_body df col window_size) st.

(** Lines 76-99, the body of the inner loop of the variable-size branch. *)
Definition variable_body (df : DataFrame) (col : list (option Q))
  (window_size : Q) (st : best) (i : nat) : result best :=
  let start_time := nth i (X_Value df) 0 in
  let end_time := start_time + window_size in
  match last_label (index_le (X_Value df) end_time) with
  | Err e => Err e
  | Ok end_idx =>
      if (Z.of_nat end_idx - Z.of_nat i <? 2)%Z then Ok st
      else
        let window := iloc col i (end_idx + 1) in
        let current_std := std window in
        let actual_window_size := nth end_idx (X_Value df) 0 - start_time in
        if Qgt_bool (Qabs (actual_window_size - window_size))
                    (window_size * 0.01)
        then Ok st
        else if fval_ltb current_std (min_std st)
        then Ok {| min_std := current_std; best_start_idx := i;
                   best_end_idx := end_idx; best_window_size := window_size |}
        else Ok st
  end.

(** Lines 72-99 with the sequence of window sizes as an argument. *)
Definition scan_lengths (df : DataFrame) (col : list (option Q))
  (window_sizes : list Q) (st : best) : result best :=
  for_each window_sizes
    (fun st window_size =>
       for_each (range (len df)) (variable_body df col window_size) st)
    st.

(** The window sizes of line 72. *)
Definition window_sizes (min_window_size max_window_size : Q) : list Q :=
  arange min_window_size (max_window_size + 1) 1.

(** Lines 70-99. *)
Definition variable_branch (df : DataFrame) (col : list (option Q))
  (min_window_size max_window_size : Q) (st : best) : result best :=
  scan_lengths df col (window_sizes min_window_size max_window_size) st.

(** The returned tuple (the specification's [WindowResult]). *)
Record WindowResult : Type := {
  start_index : nat;
  end_index : nat;
  std_dev : fval;
  achieved_length : Q
}.

(** Lines 101-104. *)
Definition finish (scanned : result best) : result WindowResult :=
  match scanned with
  | Err e => Err e
  | Ok st =>
      if is_inf (min_std st) then Err NoValidWindow
      else Ok {| start_index := best_start_idx st;
                 end_index := best_end_idx st + 1;
                 std_dev := min_std st;
                 achieved_length := best_window_size st |}
  end.

(** Lines 14-104. *)
Definition find_min_std_window (df : DataFrame) (column_name : string)
  (min_window_size max_window_size : Q) : result WindowResult :=
  match column df column_name with
  | None => Err UnknownChannel
  | Some col =>
      if Qgt_bool min_window_size max_window_size then Err InvalidRange
      else
        finish
          (if Qeq_bool min_window_size max_window_size
           then fixed_branch df col min_window_size initial
           else variable_branch df col min_window_size max_window_size initial)
  end.

(** ** Specification-side notions *)

(** [e] is the largest index whose time is at most [x]. *)
Definition last_at_or_before (time : list Q) (x : Q) (e : nat) : Prop :=
  (e < length time)%nat /\
  nth e time 0 <= x /\
  forall j, (e < j < length time)%nat -> ~ nth j time 0 <= x.

(** The window that starts at [i] for the target length [L] ends at [e]
    (inclusive) and passes both filters of the scan: at least two positions
    past the start, and a realized duration within 1% of [L]. *)
Definition valid_window (df : DataFrame) (L : Q) (i e : nat) : Prop :=
  (i < len df)%nat /\
  last_at_or_before (X_Value df) (nth i (X_Value df) 0 + L) e /\
  (i + 2 <= e)%nat /\
  Qabs (nth e (X_Value df) 0 - nth i (X_Value df) 0 - L) <= L * 0.01.

(** The target lengths a call scans, in scan order. *)
Definition candidate_lengths (min_window_size max_window_size : Q) : list Q :=
  if Qeq_bool min_window_size max_window_size then [min_window_size]
  else window_sizes min_window_size max_window_size.




(** What one iteration offers to the comparison of lines 65 and 95: the
    record it would store, or nothing when a filter skips the window. *)
Definition candidate (df : DataFrame) (col : list (option Q)) (L : Q)
  (i : nat) : result (option best) :=
  match last_label (index_le (X_Value df) (nth i (X_Value df) 0 + L)) with
  | Err e => Err e
  | Ok e =>
      if (Z.of_nat e - Z.of_nat i <? 2)%Z then Ok None
      else if Qgt_bool (Qabs (nth e (X_Value df) 0 - nth i (X_Value df) 0 - L))
                       (L * 0.01)
      then Ok None
      else Ok (Some {| min_std := std (iloc col i (e + 1));
                       best_start_idx := i;
                       best_end_idx := e;
                       best_window_size := L |})
  end.

(** Lines 65-69 and 95-99. *)
Definition update (st c : best) : best :=
  if fval_ltb (min_std c) (min_std st) then c else st.

Definition offer (st : best) (oc : result (option best)) : result best :=
  match oc with
  | Err e => Err e
  | Ok None => Ok st
  | Ok (Some c) => Ok (update st c)
  end.

(** The loop nest as one loop over (length, start index) pairs. *)
Definition scan_pairs (df : DataFrame) (col : list (option Q))
  (ps : list (Q * nat)) (st : best) : result best :=
  for_each ps (fun s p => variable_body df col (fst p) s (snd p)) st.

(** ** The grid of subplots (lines 244-269 and 283-327)

    [plot_time_series] and [plot_windows] lay their subplots out with the
    same code: two columns, [(len(colunas) + 1) // 2] rows, one axes per
    name in row-major order, and the axes left over deleted.  What they draw
    inside an axes is not modelled; an axes is named by its (row, column)
    position in the figure. *)

(** What [plt.subplots(nrows, 2)] returns with the default [squeeze=True]: a
    one-dimensional array for one row, a two-dimensional one for more. *)
Inductive axes_array : Type :=
| Axes1D (ncols : nat)
| Axes2D (nrows ncols : nat).

Inductive plot_error : Type :=
| RowsValueError      (* plt.subplots with no row *)
| AxesIndexError      (* an index out of range, or too many indices *)
| RowAttributeError.  (* a row of axes used as an axes *)

Inductive plot_action : Type :=
| Plot (ax : nat * nat) (coluna : string)
| Delaxes (ax : nat * nat).

Definition n_colunas : nat := 2.

(** [n_linhas = (len(colunas) + 1) // 2] *)
Definition n_linhas (colunas : list string) : nat := (length colunas + 1) / 2.

(** [plt.subplots(nrows, ncols)] for the two columns of the program. *)
Definition subplots (nrows ncols : nat) : axes_array + plot_error :=
  if (nrows =? 0)%nat then inr RowsValueError
  else if (nrows =? 1)%nat then inl (Axes1D ncols)
  else inl (Axes2D nrows ncols).

(** [axs[linha, col]] *)
Definition getitem2 (axs : axes_array) (linha col : nat)
  : (nat * nat) + plot_error :=
  match axs with
  | Axes1D _ => inr AxesIndexError
  | Axes2D nrows ncols =>
      if ((linha <? nrows) && (col <? ncols))%nat then inl (linha, col)
      else inr AxesIndexError
  end.

(** [axs[col]] used as an axes *)
Definition getitem1 (axs : axes_array) (col : nat)
  : (nat * nat) + plot_error :=
  match axs with
  | Axes1D ncols =>
      if (col <? ncols)%nat then inl (0%nat, col) else inr AxesIndexError
  | Axes2D _ _ => inr RowAttributeError
  end.

(** The loop over [enumerate(colunas)], from the index [idx] on; the
    actions done so far are [done]. *)
Fixpoint plot_loop (axs : axes_array) (rows : nat) (idx : nat)
  (colunas : list string) (done : list plot_action)
  : list plot_action * option plot_error :=
  match colunas with
  | [] => (done, None)
  | coluna :: rest =>
      let linha := (idx / n_colunas)%nat in
      let col := (idx mod n_colunas)%nat in
      match (if (1 <? rows)%nat then getitem2 axs linha col
             else getitem1 axs col) with
      | inr e => (done, Some e)
      | inl ax => plot_loop axs rows (S idx) rest (done ++ [Plot ax coluna])
      end
  end.

(** The loop that removes the empty subplots, over the indices [idxs]. *)
Fixpoint delete_loop (axs : axes_array) (idxs : list nat)
  (done : list plot_action) : list plot_action * option plot_error :=
  match idxs with
  | [] => (done, None)
  | idx :: rest =>
      let linha := (idx / n_colunas)%nat in
      let col := (idx mod n_colunas)%nat in
      match getitem2 axs linha col with
      | inr e => (done, Some e)
      | inl ax => delete_loop axs rest (done ++ [Delaxes ax])
      end
  end.

(** The actions on axes of [plot_time_series(df, colunas)] and of
    [plot_windows(df, colunas, ...)], in order, and the exception that ends
    them if one is raised. *)
Definition subplot_layout (colunas : list string)
  : list plot_action * option plot_error :=
  let rows := n_linhas colunas in
  match subplots rows n_colunas with
  | inr e => ([], Some e)
  | inl axs =>
      match plot_loop axs rows 0 colunas [] with
      | (done, Some e) => (done, Some e)
      | (done, None) =>
          delete_loop axs
            (seq (length colunas) (rows * n_colunas - length colunas)) done
      end
  end.

(** The axes of the index [idx] in row-major order. *)
Definition cell (idx : nat) : nat * nat :=
  ((idx / n_colunas)%nat, (idx mod n_colunas)%nat).

(** ** The header of the file (lines 120-155)

    A line is a string; [needle in line], [str.split] with a separator
    that is not empty and [str.join] are modelled on it.  [str.strip] is a
    parameter of the model. *)

Definition End_of_Header : string := "***End_of_Header***".

(** [needle in hay] *)
Fixpoint contains (needle hay : string) : bool :=
  if String.prefix needle hay then true
  else match hay with
       | EmptyString => false
       | String _ hay' => contains needle hay'
       end.

(** [s.split(sep)] for a separator that is not empty, from a position on:
    [skip] characters of a separator found are still to be passed over and
    [cur] is the piece read so far. *)
Fixpoint str_split_from (sep : string) (skip : nat) (cur : string) (s : string)
  : list string :=
  match s with
  | EmptyString => [cur]
  | String c s' =>
      match skip with
      | S k => str_split_from sep k cur s'
      | O =>
          if String.prefix sep s
          then cur :: str_split_from sep (String.length sep - 1) EmptyString s'
          else str_split_from sep 0 (cur ++ String c EmptyString) s'
      end
  end.

(** [s.split(sep)] *)
Definition str_split (sep s : string) : list string :=
  str_split_from sep 0 EmptyString s.

(** Lines 145-152: [header_end_idx] after the loop that counts the lines
    holding the marker, from the line of index [i] on. *)
Fixpoint header_end_loop (lines : list string) (i header_count : nat) : nat :=
  match lines with
  | [] => 0%nat
  | line :: rest =>
      if contains End_of_Header line then
        let header_count := (header_count + 1)%nat in
        if (header_count =? 2)%nat then (i + 1)%nat
        else header_end_loop rest (i + 1) header_count
      else header_end_loop rest (i + 1) header_count
  end.

Definition header_end_idx (lines : list string) : nat :=
  header_end_loop lines 0 0.

(** Line 155 before [.strip().split('\t')]: [lines[header_end_idx]], [None]
    for its [IndexError]. *)
Definition column_names_line (lines : list string) : option string :=
  nth_error lines (header_end_idx lines).

Section Date.

Variable strip : string -> string.

(** Lines 134-142, the [try] block: the new value of [data_teste], or
    [None] when the block leaves it as it is (an exception passed over, or
    a number of parts other than three). *)
Definition parse_date (line : string) : option string :=
  match nth_error (str_split "Date" (strip line)) 1 with
  | None => None
  | Some piece =>
      let data := strip piece in
      match str_split "/" data with
      | [p0; p1; p2] => Some (p0 ++ "/" ++ p1 ++ "/" ++ p2)%string
      | _ => None
      end
  end.

(** Lines 127-142. *)
Fixpoint date_loop (lines : list string) (primeiro_header_end : bool)
  (data_teste : option string) : option string :=
  match lines with
  | [] => data_teste
  | line :: rest =>
      if contains End_of_Header line then date_loop rest true data_teste
      else if negb primeiro_header_end then
        if contains "Date" line then
          match parse_date line with
          | Some d => date_loop rest primeiro_header_end (Some d)
          | None => date_loop rest primeiro_header_end data_teste
          end
        else date_loop rest primeiro_header_end data_teste
      else date_loop rest primeiro_header_end data_teste
  end.

(** Lines 124-142: the date [read_file] returns. *)
Definition data_teste (lines : list string) : option string :=
  date_loop lines false None.

End Date.

(** [str.strip] on strings without characters beyond ASCII, for the
    examples. *)
Definition is_space (c : Ascii.ascii) : bool :=
  let n := Ascii.nat_of_ascii c in
  ((9 <=? n) && (n <=? 13) || (28 <=? n) && (n <=? 32))%nat.

Fixpoint lstrip (s : string) : string :=
  match s with
  | EmptyString => EmptyString
  | String c s' => if is_space c then lstrip s' else s
  end.

Fixpoint rstrip (s : string) : string :=
  match s with
  | EmptyString => EmptyString
  | String c s' =>
      match rstrip s' with
      | EmptyString => if is_space c then EmptyString else String c EmptyString
      | r => String c r
      end
  end.

Definition ascii_strip (s : string) : string := rstrip (lstrip s).

(** ** The report (lines 208-216) *)





(** ** The search over any arithmetic

    The search again, line by line, with the float64 operations it uses
    left as the fields of a record: nothing is assumed about rounding,
    overflow or the summation order of [Series.std()], and NaN and the
    infinities are values like the others.  float64 has one carrier for
    the three sorts; the exact model above is the instance [exact]. *)

Record arith : Type := {
  num : Type;                          (* a time, a length *)
  entry : Type;                         (* a cell of a value column *)
  dev : Type;                          (* a standard deviation *)
  fzero : num;
  fone : num;
  fhundredth : num;                     (* 0.01 *)
  fadd : num -> num -> num;
  fsub : num -> num -> num;
  fmul : num -> num -> num;
  fabs : num -> num;               (* abs *)
  fle : num -> num -> bool;            (* <= *)
  fgt : num -> num -> bool;            (* > *)
  feq : num -> num -> bool;            (* == *)
  entry_of : num -> entry;               (* a time read as a cell *)
  std_of : list entry -> dev;           (* Series.std() *)
  infinity : dev;                      (* float('inf') *)
  dev_ltb : dev -> dev -> bool;        (* < *)
  dev_leb : dev -> dev -> bool;        (* <= *)
  dev_is_inf : dev -> bool;            (* == float('inf') *)
  arange_of : num -> num -> num -> option (list num)
                                       (* np.arange, [None] when it raises *)
}.

(** What the comparisons of float64 satisfy, NaN and infinities included. *)
Record lawful (A : arith) : Prop := {
  dev_lt_le : forall a b, dev_ltb A a b = true -> dev_leb A a b = true;
  dev_le_lt_trans : forall a b c,
    dev_leb A a b = true -> dev_ltb A b c = true -> dev_ltb A a c = true;
  dev_lt_irrefl : forall a, dev_ltb A a a = false;
  dev_total : forall a b x y,
    dev_ltb A a x = true -> dev_ltb A b y = true ->
    dev_leb A a b = false -> dev_ltb A b a = true;
  dev_below_inf : forall a,
    dev_ltb A a (infinity A) = true -> dev_is_inf A a = false;
  dev_inf_is_inf : dev_is_inf A (infinity A) = true
}.

(** The exceptions of the call: the three [ValueError]s of the function,
    the [IndexError] of [.index[-1]] and the error of [np.arange]. *)
Inductive g_error : Type :=
| G_UnknownChannel
| G_InvalidRange
| G_NoValidWindow
| G_IndexError
| G_ArangeError.

Inductive outcome (X : Type) : Type :=
| Returns (x : X)
| Raises (e : g_error).

Arguments Returns {X} x.
Arguments Raises {X} e.

Fixpoint g_for_each {X St : Type} (xs : list X)
  (body : St -> X -> outcome St) (st : St) : outcome St :=
  match xs with
  | [] => Returns st
  | x :: xs' =>
      match body st x with
      | Returns st' => g_for_each xs' body st'
      | Raises e => Raises e
      end
  end.

Record g_frame (A : arith) : Type := {
  g_X_Value : list (num A);
  g_channels : list (string * list (entry A))
}.

Arguments g_X_Value {A} _.
Arguments g_channels {A} _.

Fixpoint g_lookup {A : arith} (name : string)
  (cs : list (string * list (entry A))) : option (list (entry A)) :=
  match cs with
  | [] => None
  | (k, c) :: cs' => if String.eqb name k then Some c else g_lookup name cs'
  end.

(** [df[name]], [None] when [name not in df.columns]. *)
Definition g_column {A : arith} (df : g_frame A) (name : string)
  : option (list (entry A)) :=
  if String.eqb name "X_Value" then Some (map (entry_of A) (g_X_Value df))
  else g_lookup name (g_channels df).

Definition g_len {A : arith} (df : g_frame A) : nat := length (g_X_Value df).

(** [df[df['X_Value'] <= end_time].index] *)
Definition g_index_le (A : arith) (time : list (num A)) (end_time : num A)
  : list nat :=
  filter (fun j => fle A (nth j time (fzero A)) end_time) (seq 0 (length time)).

(** [ix[-1]] *)
Definition g_last_label (ix : list nat) : outcome nat :=
  match rev ix with
  | [] => Raises G_IndexError
  | j :: _ => Returns j
  end.

Record g_best (A : arith) : Type := {
  g_min_std : dev A;
  g_best_start_idx : nat;
  g_best_end_idx : nat;
  g_best_window_size : num A
}.

Arguments g_min_std {A} _.
Arguments g_best_start_idx {A} _.
Arguments g_best_end_idx {A} _.
Arguments g_best_window_size {A} _.

(** Lines 35-38. *)
Definition g_initial (A : arith) : g_best A :=
  {| g_min_std := infinity A; g_best_start_idx := 0; g_best_end_idx := 0;
     g_best_window_size := fzero A |}.

(** Lines 46-69, the body of the loop over [i] in the fixed-size branch. *)
Definition g_fixed_body (A : arith) (df : g_frame A) (col : list (entry A))
  (window_size : num A) (st : g_best A) (i : nat) : outcome (g_best A) :=
  let start_time := nth i (g_X_Value df) (fzero A) in
  let end_time := fadd A start_time window_size in
  match g_last_label (g_index_le A (g_X_Value df) end_time) with
  | Raises e => Raises e
  | Returns end_idx =>
      if (Z.of_nat end_idx - Z.of_nat i <? 2)%Z then Returns st
      else
        let window := iloc col i (end_idx + 1) in
        let current_std := std_of A window in
        let actual_window_size :=
          fsub A (nth end_idx (g_X_Value df) (fzero A)) start_time in
        if fgt A (fabs A (fsub A actual_window_size window_size))
                 (fmul A window_size (fhundredth A))
        then Returns st
        else if dev_ltb A current_std (g_min_std st)
        then Returns {| g_min_std := current_std; g_best_start_idx := i;
                        g_best_end_idx := end_idx;
                        g_best_window_size := window_size |}
        else Returns st
  end.

(** Lines 41-69. *)
Definition g_fixed_branch (A : arith) (df : g_frame A) (col : list (entry A))
  (min_window_size : num A) (st : g_best A) : outcome (g_best A) :=
  let window_size := min_window_size in
  g_for_each (range (g_len df)) (g_fixed_body A df col window_size) st.

(** Lines 76-99, the body of the inner loop of the variable-size branch. *)
Definition g_variable_body (A : arith) (df : g_frame A) (col : list (entry A))
  (window_size : num A) (st : g_best A) (i : nat) : outcome (g_best A) :=
  let start_time := nth i (g_X_Value df) (fzero A) in
  let end_time := fadd A start_time window_size in
  match g_last_label (g_index_le A (g_X_Value df) end_time) with
  | Raises e => Raises e
  | Returns end_idx =>
      if (Z.of_nat end_idx - Z.of_nat i <? 2)%Z then Returns st
      else
        let window := iloc col i (end_idx + 1) in
        let current_std := std_of A window in
        let actual_window_size :=
          fsub A (nth end_idx (g_X_Value df) (fzero A)) start_time in
        if fgt A (fabs A (fsub A actual_window_size window_size))
                 (fmul A window_size (fhundredth A))
        then Returns st
        else if dev_ltb A current_std (g_min_std st)
        then Returns {| g_min_std := current_std; g_best_start_idx := i;
                        g_best_end_idx := end_idx;
                        g_best_window_size := window_size |}
        else Returns st
  end.

(** Lines 72-99 with the sequence of window sizes as an argument. *)
Definition g_scan_lengths (A : arith) (df : g_frame A) (col : list (entry A))
  (window_sizes : list (num A)) (st : g_best A) : outcome (g_best A) :=
  g_for_each window_sizes
    (fun st window_size =>
       g_for_each (range (g_len df)) (g_variable_body A df col window_size) st)
    st.

(** Lines 70-99; [np.arange(min_window_size, max_window_size + 1, 1)] may
    raise. *)
Definition g_variable_branch (A : arith) (df : g_frame A)
  (col : list (entry A)) (min_window_size max_window_size : num A)
  (st : g_best A) : outcome (g_best A) :=
  match arange_of A min_window_size (fadd A max_window_size (fone A)) (fone A)
  with
  | None => Raises G_ArangeError
  | Some window_sizes => g_scan_lengths A df col window_sizes st
  end.

Record g_result (A : arith) : Type := {
  g_start_index : nat;
  g_end_index : nat;
  g_std_dev : dev A;
  g_achieved_length : num A
}.

Arguments g_start_index {A} _.
Arguments g_end_index {A} _.
Arguments g_std_dev {A} _.
Arguments g_achieved_length {A} _.

(** Lines 101-104. *)
Definition g_finish (A : arith) (scanned : outcome (g_best A))
  : outcome (g_result A) :=
  match scanned with
  | Raises e => Raises e
  | Returns st =>
      if dev_is_inf A (g_min_std st) then Raises G_NoValidWindow
      else Returns {| g_start_index := g_best_start_idx st;
                      g_end_index := g_best_end_idx st + 1;
                      g_std_dev := g_min_std st;
                      g_achieved_length := g_best_window_size st |}
  end.

(** Lines 14-104. *)
Definition g_find_min_std_window (A : arith) (df : g_frame A)
  (column_name : string) (min_window_size max_window_size : num A)
  : outcome (g_result A) :=
  match g_column df column_name with
  | None => Raises G_UnknownChannel
  | Some col =>
      if fgt A min_window_size max_window_size then Raises G_InvalidRange
      else
        g_finish A
          (if feq A min_window_size max_window_size
           then g_fixed_branch A df col min_window_size (g_initial A)
           else g_variable_branch A df col min_window_size max_window_size
                  (g_initial A))
  end.

(** The lengths a call scans, in scan order; [None] when [np.arange]
    raises. *)
Definition g_lengths (A : arith) (mn mx : num A) : option (list (num A)) :=
  if feq A mn mx then Some [mn]
  else arange_of A mn (fadd A mx (fone A)) (fone A).

(** The (length, start index) pairs in the order the loops visit them:
    the lengths in the order they are produced, and for each length the
    start indices upwards. *)
Definition g_scan_order {A : arith} (Ls : list (num A)) (n : nat)
  : list (num A * nat) :=
  list_prod Ls (range n).

(** [e] is the largest index whose time is at most [x], as [<=] decides. *)
Definition g_last_at_or_before (A : arith) (time : list (num A)) (x : num A)
  (e : nat) : Prop :=
  (e < length time)%nat /\
  fle A (nth e time (fzero A)) x = true /\
  forall j, (e < j < length time)%nat -> fle A (nth j time (fzero A)) x = false.

(** Some row is at or before the start time plus the length, as the program
    computes and compares them: [.index[-1]] does not raise. *)
Definition g_row_found (A : arith) (df : g_frame A) (L : num A) (i : nat)
  : Prop :=
  exists j, (j < g_len df)%nat /\
            fle A (nth j (g_X_Value df) (fzero A))
                  (fadd A (nth i (g_X_Value df) (fzero A)) L) = true.

(** The window that starts at [i] for the length [L] ends at [e] and passes
    both filters, as the program evaluates them. *)
Definition g_valid_window (A : arith) (df : g_frame A) (L : num A)
  (i e : nat) : Prop :=
  (i < g_len df)%nat /\
  g_last_at_or_before A (g_X_Value df)
    (fadd A (nth i (g_X_Value df) (fzero A)) L) e /\
  (i + 2 <= e)%nat /\
  fgt A (fabs A (fsub A (fsub A (nth e (g_X_Value df) (fzero A))
                                (nth i (g_X_Value df) (fzero A))) L))
        (fmul A L (fhundredth A)) = false.

(** The standard deviation the program computes for the window [i..e]. *)
Definition g_window_std (A : arith) (col : list (entry A)) (i e : nat)
  : dev A :=
  std_of A (iloc col i (e + 1)).

(** What one iteration offers to the comparison of lines 65 and 95. *)
Definition g_candidate (A : arith) (df : g_frame A) (col : list (entry A))
  (L : num A) (i : nat) : outcome (option (g_best A)) :=
  match g_last_label
          (g_index_le A (g_X_Value df)
             (fadd A (nth i (g_X_Value df) (fzero A)) L)) with
  | Raises e => Raises e
  | Returns e =>
      if (Z.of_nat e - Z.of_nat i <? 2)%Z then Returns None
      else if fgt A (fabs A (fsub A (fsub A (nth e (g_X_Value df) (fzero A))
                                            (nth i (g_X_Value df) (fzero A)))
                                    L))
                    (fmul A L (fhundredth A))
      then Returns None
      else Returns (Some {| g_min_std := g_window_std A col i e;
                            g_best_start_idx := i;
                            g_best_end_idx := e;
                            g_best_window_size := L |})
  end.

Definition g_update {A : arith} (st c : g_best A) : g_best A :=
  if dev_ltb A (g_min_std c) (g_min_std st) then c else st.

Definition g_offer {A : arith} (st : g_best A)
  (oc : outcome (option (g_best A))) : outcome (g_best A) :=
  match oc with
  | Raises e => Raises e
  | Returns None => Returns st
  | Returns (Some c) => Returns (g_update st c)
  end.

Definition g_scan_pairs (A : arith) (df : g_frame A) (col : list (entry A))
  (ps : list (num A * nat)) (st : g_best A) : outcome (g_best A) :=
  g_for_each ps (fun s p => g_variable_body A df col (fst p) s (snd p)) st.

(** The exact model as an arithmetic: rationals, cells that are a rational
    or missing, and symbolic standard deviations; [np.arange] never
    raises. *)
Definition exact : arith :=
  {| num := Q; entry := option Q; dev := fval;
     fzero := 0; fone := 1; fhundredth := 0.01;
     fadd := Qplus; fsub := Qminus; fmul := Qmult; fabs := Qabs;
     fle := Qle_bool; fgt := Qgt_bool; feq := Qeq_bool;
     entry_of := Some; std_of := std;
     infinity := Inf; dev_ltb := fval_ltb; dev_leb := fval_leb;
     dev_is_inf := is_inf;
     arange_of := fun start stop step => Some (arange start stop step) |}.

(** A data frame of the exact model as a frame over [exact]. *)
Definition exact_frame (df : DataFrame) : g_frame exact :=
  Build_g_frame exact (X_Value df) (channels df).


(** Three samples half a second apart. *)
Definition brief : DataFrame :=
  {| X_Value := [0; 0.5; 1];
     channels := [("v"%string, [Some 1; Some 2; Some 3])] |}.

(** The end index an iteration offers, if it offers a window. *)
Definition g_offered_end {A : arith} (oc : outcome (option (g_best A)))
  : option nat :=
  match oc with
  | Returns (Some c) => Some (g_best_end_idx c)
  | _ => None
  end.

(** The results of the exact model as results over [exact]. *)
Definition lift_error (e : error) : g_error :=
  match e with
  | UnknownChannel => G_UnknownChannel
  | InvalidRange => G_InvalidRange
  | NoValidWindow => G_NoValidWindow
  | IndexError => G_IndexError
  end.

Definition lift_best (st : best) : g_best exact :=
  Build_g_best exact (min_std st) (best_start_idx st) (best_end_idx st)
    (best_window_size st).

Definition lift_window (r : WindowResult) : g_result exact :=
  Build_g_result exact (start_index r) (end_index r) (std_dev r)
    (achieved_length r).

Definition lift {X Y : Type} (f : X -> Y) (r : result X) : outcome Y :=
  match r with
  | Ok x => Returns (f x)
  | Err e => Raises (lift_error e)
  end.

(** ** Example series *)

(** The series of the specification's example: two plateaus. *)
Definition plateau : DataFrame :=
  {| X_Value := [0; 1; 2; 3; 4; 5];
     channels := [("v"%string,
                   [Some 10; Some 10; Some 10; Some 20; Some 20; Some 20])] |}.

(** Three samples 1.75 s apart with a constant channel. *)
Definition sparse : DataFrame :=
  {| X_Value := [0; 1.75; 3.5];
     channels := [("v"%string, [Some 1; Some 1; Some 1])] |}.

(** Three samples one second apart whose channel has no value at all. *)
Definition blank : DataFrame :=
  {| X_Value := [0; 1; 2];
     channels := [("v"%string, [None; None; None])] |}.


(** ** Order facts *)

Lemma Qgt_bool_true (a b : Q) : Qgt_bool a b = true <-> b < a.
Proof.
  unfold Qgt_bool. rewrite negb_true_iff, <- not_true_iff_false, Qle_bool_iff.
  split; [apply Qnot_le_lt | apply Qlt_not_le].
Qed.

Lemma Qgt_bool_false (a b : Q) : Qgt_bool a b = false <-> a <= b.
Proof.
  unfold Qgt_bool. rewrite negb_false_iff. apply Qle_bool_iff.
Qed.

Lemma fval_ltb_leb (a b : fval) : fval_ltb a b = true -> fval_leb a b = true.
Proof.
  destruct a, b; simpl; try discriminate; auto.
  rewrite Qgt_bool_true, Qle_bool_iff. apply Qlt_le_weak.
Qed.

Lemma fval_leb_ltb_trans (a b c : fval) :
  fval_leb a b = true -> fval_ltb b c = true -> fval_ltb a c = true.
Proof.
  destruct a, b, c; simpl; try discriminate; auto.
  rewrite Qle_bool_iff, !Qgt_bool_true. apply Qle_lt_trans.
Qed.

Lemma fval_ltb_irrefl (a : fval) : fval_ltb a a = false.
Proof.
  destruct a; simpl; auto. apply Qgt_bool_false, Qle_refl.
Qed.

Lemma fval_ltb_Inf (a : fval) :
  fval_ltb a Inf = true <-> exists v, a = Sqrt v.
Proof.
  destruct a; simpl; split; try discriminate; eauto; intros [v Hv];
    discriminate.
Qed.

Lemma fval_ltb_is_inf (a b : fval) : fval_ltb a b = true -> is_inf a = false.
Proof. destruct a; simpl; auto; discriminate. Qed.

(** ** Loops *)

Lemma for_each_app {A S : Type} (xs ys : list A) (body : S -> A -> result S)
  (st : S) :
  for_each (xs ++ ys) body st =
  match for_each xs body st with
  | Ok st' => for_each ys body st'
  | Err e => Err e
  end.
Proof.
  revert st. induction xs as [|x xs IH]; intros st; simpl; auto.
  destruct (body st x); auto.
Qed.

Lemma for_each_map {A B S : Type} (f : A -> B) (xs : list A)
  (body : S -> B -> result S) (st : S) :
  for_each (map f xs) body st = for_each xs (fun s a => body s (f a)) st.
Proof.
  revert st. induction xs as [|x xs IH]; intros st; simpl; auto.
  destruct (body st (f x)); auto.
Qed.

Lemma for_each_ext {A S : Type} (xs : list A) (f g : S -> A -> result S) :
  (forall s a, f s a = g s a) ->
  forall st, for_each xs f st = for_each xs g st.
Proof.
  intros H. induction xs as [|x xs IH]; intros st; simpl; auto.
  rewrite H. destruct (g st x); auto.
Qed.

(** A loop nest is one loop over the pairs in scan order. *)
Lemma for_each_nest {A B S : Type} (xs : list A) (ys : list B)
  (body : A -> S -> B -> result S) (st : S) :
  for_each xs (fun s x => for_each ys (body x) s) st =
  for_each (list_prod xs ys) (fun s p => body (fst p) s (snd p)) st.
Proof.
  revert st. induction xs as [|x xs IH]; intros st; simpl; auto.
  rewrite for_each_app, for_each_map. simpl.
  destruct (for_each ys (body x) st); auto.
Qed.

(** ** The last label at or before a time *)

Lemma last_label_app_one (l : list nat) (x : nat) :
  last_label (l ++ [x]) = Ok x.
Proof. unfold last_label. rewrite rev_app_distr. reflexivity. Qed.

Lemma last_label_filter_seq (P : nat -> bool) (n e : nat) :
  last_label (filter P (seq 0 n)) = Ok e <->
  (e < n)%nat /\ P e = true /\ forall j, (e < j < n)%nat -> P j = false.
Proof.
  induction n as [|n IH].
  - simpl. split; [discriminate | lia].
  - rewrite seq_S, filter_app. simpl. destruct (P n) eqn:Hn.
    + rewrite last_label_app_one. split.
      * intros H. injection H as <-. repeat split; auto; lia.
      * intros (Hlt & He & Hlast).
        destruct (Nat.eq_dec e n) as [->|Hne]; auto.
        rewrite Hlast in Hn by lia. discriminate.
    + rewrite app_nil_r, IH. split.
      * intros (Hlt & He & Hlast). repeat split; auto.
        intros j Hj. destruct (Nat.eq_dec j n) as [->|]; auto.
        apply Hlast. lia.
      * intros (Hlt & He & Hlast).
        assert (e <> n) by congruence.
        repeat split; auto; try lia. intros j Hj. apply Hlast. lia.
Qed.

Lemma last_label_index_le (time : list Q) (x : Q) (e : nat) :
  last_label (index_le time x) = Ok e <-> last_at_or_before time x e.
Proof.
  unfold index_le, last_at_or_before. rewrite last_label_filter_seq.
  rewrite Qle_bool_iff. split; intros (H1 & H2 & H3); repeat split; auto.
  - intros j Hj Hle. apply Qle_bool_iff in Hle.
    rewrite H3 in Hle by auto. discriminate.
  - intros j Hj. apply not_true_iff_false. rewrite Qle_bool_iff. auto.
Qed.

(** ** One iteration *)

Lemma variable_body_offer (df : DataFrame) (col : list (option Q)) (L : Q)
  (st : best) (i : nat) :
  variable_body df col L st i = offer st (candidate df col L i).
Proof.
  unfold variable_body, candidate, offer, update.
  destruct (last_label _) as [e|err]; auto.
  destruct (_ <? 2)%Z; auto.
  destruct (Qgt_bool _ _); auto.
  simpl. destruct (fval_ltb _ _); auto.
Qed.

Lemma fixed_body_variable_body (df : DataFrame) (col : list (option Q))
  (L : Q) (st : best) (i : nat) :
  fixed_body df col L st i = variable_body df col L st i.
Proof. reflexivity. Qed.

Lemma fixed_branch_scan_lengths (df : DataFrame) (col : list (option Q))
  (w : Q) (st : best) :
  fixed_branch df col w st = scan_lengths df col [w] st.
Proof.
  unfold fixed_branch, scan_lengths. simpl.
  rewrite (for_each_ext _ _ _ (fixed_body_variable_body df col w)).
  destruct (for_each _ _ st); reflexivity.
Qed.

Lemma scan_lengths_pairs (df : DataFrame) (col : list (option Q))
  (Ls : list Q) (st : best) :
  scan_lengths df col Ls st =
  scan_pairs df col (list_prod Ls (range (len df))) st.
Proof.
  unfold scan_lengths, scan_pairs.
  apply (for_each_nest Ls (range (len df)) (variable_body df col)).
Qed.

Lemma candidate_valid (df : DataFrame) (col : list (option Q)) (L : Q)
  (i : nat) (c : best) :
  (i < len df)%nat ->
  (candidate df col L i = Ok (Some c) <->
   exists e, valid_window df L i e /\
             c = {| min_std := std (iloc col i (e + 1));
                    best_start_idx := i;
                    best_end_idx := e;
                    best_window_size := L |}).
Proof.
  intros Hi. unfold candidate, valid_window. split.
  - destruct (last_label _) as [e|err] eqn:He; [|discriminate].
    apply last_label_index_le in He.
    destruct (_ <? 2)%Z eqn:H2; [discriminate|].
    destruct (Qgt_bool _ _) eqn:Htol; [discriminate|].
    intros H. injection H as <-. exists e.
    apply Z.ltb_ge in H2. apply Qgt_bool_false in Htol.
    repeat split; auto; try apply He. lia.
  - intros (e & (_ & He & H2 & Htol) & ->).
    apply last_label_index_le in He. rewrite He.
    replace (_ <? 2)%Z with false by (symmetry; apply Z.ltb_ge; lia).
    apply Qgt_bool_false in Htol. rewrite Htol. reflexivity.
Qed.

(** ** The scan and its first minimum *)

Lemma scan_pairs_snoc (df : DataFrame) (col : list (option Q))
  (ps : list (Q * nat)) (p : Q * nat) (st0 : best) :
  scan_pairs df col (ps ++ [p]) st0 =
  match scan_pairs df col ps st0 with
  | Ok st' => offer st' (candidate df col (fst p) (snd p))
  | Err e => Err e
  end.
Proof.
  unfold scan_pairs. rewrite for_each_app.
  destruct (for_each ps _ st0) as [st'|err]; auto.
  simpl. rewrite variable_body_offer.
  destruct (offer st' _); reflexivity.
Qed.

Lemma scan_pairs_inv (df : DataFrame) (col : list (option Q))
  (ps : list (Q * nat)) (st0 st : best) :
  scan_pairs df col ps st0 = Ok st ->
  (st = st0 /\
   forall p c, In p ps -> candidate df col (fst p) (snd p) = Ok (Some c) ->
               fval_ltb (min_std c) (min_std st0) = false)
  \/
  (exists ps1 p ps2,
     ps = ps1 ++ p :: ps2 /\
     candidate df col (fst p) (snd p) = Ok (Some st) /\
     fval_ltb (min_std st) (min_std st0) = true /\
     (forall p' c', In p' ps1 ->
        candidate df col (fst p') (snd p') = Ok (Some c') ->
        fval_leb (min_std c') (min_std st) = false) /\
     (forall p' c', In p' ps2 ->
        candidate df col (fst p') (snd p') = Ok (Some c') ->
        fval_ltb (min_std c') (min_std st) = false)).
Proof.
  revert st. induction ps as [|x ps IH] using rev_ind; intros st H.
  - injection H as <-. left. split; auto. intros p c [].
  - rewrite scan_pairs_snoc in H.
    destruct (scan_pairs df col ps st0) as [st'|err] eqn:Hps; [|discriminate].
    specialize (IH st' eq_refl).
    destruct (candidate df col (fst x) (snd x)) as [[c|]|err] eqn:Hx;
      simpl in H; [| |discriminate].
    + injection H as <-. unfold update.
      destruct (fval_ltb (min_std c) (min_std st')) eqn:Hlt.
      * (* the new candidate becomes the best *)
        right. exists ps, x, []. split; [reflexivity|]. split; [exact Hx|].
        destruct IH as [[-> Hall] | (ps1 & p & ps2 & -> & Hp & Hp0 & H1 & H2)].
        -- split; [exact Hlt|]. split; [|intros p' c' []].
           intros p' c' Hin Hc'.
           destruct (fval_leb (min_std c') (min_std c)) eqn:Hle; auto.
           pose proof (Hall p' c' Hin Hc') as Hf.
           rewrite (fval_leb_ltb_trans _ _ _ Hle Hlt) in Hf. discriminate.
        -- split.
           ++ apply fval_leb_ltb_trans with (b := min_std st'); auto.
              apply fval_ltb_leb; auto.
           ++ split; [|intros p' c' []].
              intros p' c' Hin Hc'.
              destruct (fval_leb (min_std c') (min_std c)) eqn:Hle; auto.
              pose proof (fval_leb_ltb_trans _ _ _ Hle Hlt) as Hlt'.
              apply in_app_or in Hin. destruct Hin as [Hin|[<-|Hin]].
              ** pose proof (H1 p' c' Hin Hc') as Hf.
                 rewrite (fval_ltb_leb _ _ Hlt') in Hf. discriminate.
              ** rewrite Hp in Hc'. injection Hc' as <-.
                 rewrite fval_ltb_irrefl in Hlt'. discriminate.
              ** rewrite (H2 p' c' Hin Hc') in Hlt'. discriminate.
      * (* the best is kept *)
        destruct IH as [[-> Hall] | (ps1 & p & ps2 & -> & Hp & Hp0 & H1 & H2)].
        -- left. split; auto. intros p' c' Hin Hc'.
           apply in_app_or in Hin. destruct Hin as [Hin|[<-|[]]]; eauto.
           rewrite Hx in Hc'. injection Hc' as <-. exact Hlt.
        -- right. exists ps1, p, (ps2 ++ [x]).
           split; [rewrite <- app_assoc; reflexivity|].
           repeat split; auto. intros p' c' Hin Hc'.
           apply in_app_or in Hin. destruct Hin as [Hin|[<-|[]]]; eauto.
           rewrite Hx in Hc'. injection Hc' as <-. exact Hlt.
    + injection H as <-.
      destruct IH as [[-> Hall] | (ps1 & p & ps2 & -> & Hp & Hp0 & H1 & H2)].
      * left. split; auto. intros p' c' Hin Hc'.
        apply in_app_or in Hin. destruct Hin as [Hin|[<-|[]]]; eauto.
        rewrite Hx in Hc'. discriminate.
      * right. exists ps1, p, (ps2 ++ [x]).
        split; [rewrite <- app_assoc; reflexivity|].
        repeat split; auto. intros p' c' Hin Hc'.
        apply in_app_or in Hin. destruct Hin as [Hin|[<-|[]]]; eauto.
        rewrite Hx in Hc'. discriminate.
Qed.

(** ** The call as one scan *)

Lemma find_min_std_window_scan (df : DataFrame) (name : string)
  (col : list (option Q)) (mn mx : Q) :
  column df name = Some col -> mn <= mx ->
  find_min_std_window df name mn mx =
  finish (scan_pairs df col
            (list_prod (candidate_lengths mn mx) (range (len df))) initial).
Proof.
  intros Hcol Hle. unfold find_min_std_window. rewrite Hcol.
  apply Qgt_bool_false in Hle. rewrite Hle.
  unfold candidate_lengths. destruct (Qeq_bool mn mx).
  - rewrite fixed_branch_scan_lengths, scan_lengths_pairs. reflexivity.
  - unfold variable_branch. rewrite scan_lengths_pairs. reflexivity.
Qed.

Lemma find_min_std_window_range (df : DataFrame) (name : string)
  (col : list (option Q)) (mn mx : Q) (r : WindowResult) :
  column df name = Some col ->
  find_min_std_window df name mn mx = Ok r -> mn <= mx.
Proof.
  intros Hcol H. unfold find_min_std_window in H. rewrite Hcol in H.
  destruct (Qgt_bool mn mx) eqn:Hgt; [discriminate|].
  apply Qgt_bool_false. exact Hgt.
Qed.

(** A returned window is a retained candidate of the scan; every candidate
    before it in scan order is not at most it, and no candidate is strictly
    below it. *)
Lemma find_Ok_inv (df : DataFrame) (name : string) (col : list (option Q))
  (mn mx : Q) (r : WindowResult) :
  column df name = Some col ->
  find_min_std_window df name mn mx = Ok r ->
  exists L i e ps1 ps2 v,
    list_prod (candidate_lengths mn mx) (range (len df))
      = ps1 ++ (L, i) :: ps2 /\
    valid_window df L i e /\
    std (iloc col i (e + 1)) = Sqrt v /\
    r = {| start_index := i; end_index := e + 1;
           std_dev := Sqrt v; achieved_length := L |} /\
    (forall p' c', In p' ps1 ->
       candidate df col (fst p') (snd p') = Ok (Some c') ->
       fval_leb (min_std c') (Sqrt v) = false) /\
    (forall p' c', In p' ps2 ->
       candidate df col (fst p') (snd p') = Ok (Some c') ->
       fval_ltb (min_std c') (Sqrt v) = false).
Proof.
  intros Hcol H.
  pose proof (find_min_std_window_range _ _ _ _ _ _ Hcol H) as Hle.
  rewrite (find_min_std_window_scan _ _ _ _ _ Hcol Hle) in H.
  unfold finish in H.
  destruct (scan_pairs _ _ _ _) as [st|err] eqn:Hscan; [|discriminate].
  apply scan_pairs_inv in Hscan.
  destruct Hscan as [[-> _] | (ps1 & [L i] & ps2 & Hps & Hp & Hlt & H1 & H2)].
  - simpl in H. discriminate.
  - simpl in Hp.
    assert (Hi : (i < len df)%nat).
    { assert (Hin : In (L, i)
                (list_prod (candidate_lengths mn mx) (range (len df)))).
      { rewrite Hps. apply in_or_app. simpl. auto. }
      apply in_prod_iff in Hin. destruct Hin as [_ Hin].
      apply in_seq in Hin. lia. }
    apply (candidate_valid df col L i st Hi) in Hp.
    destruct Hp as (e & Hvalid & ->). simpl in *.
    apply fval_ltb_Inf in Hlt. destruct Hlt as [v Hv].
    rewrite Hv in *. simpl in H. injection H as <-.
    exists L, i, e, ps1, ps2, v. repeat split; auto; apply Hvalid.
Qed.

(** ** The standard deviation *)











(** ** Columns *)

Lemma lookup_None (name : string) (cs : list (string * list (option Q))) :
  lookup name cs = None <-> ~ In name (map fst cs).
Proof.
  induction cs as [|[k c] cs IH]; simpl.
  - tauto.
  - destruct (String.eqb name k) eqn:Hk.
    + apply String.eqb_eq in Hk. split; [discriminate|]. intros H.
      exfalso. apply H. left. symmetry. exact Hk.
    + apply String.eqb_neq in Hk. rewrite IH. split.
      * intros H [Heq|Hin]; [apply Hk; symmetry; exact Heq | tauto].
      * tauto.
Qed.

Lemma column_None (df : DataFrame) (name : string) :
  column df name = None <-> ~ In name (columns df).
Proof.
  unfold column, columns. simpl. destruct (String.eqb name "X_Value") eqn:Hx.
  - apply String.eqb_eq in Hx. split; [discriminate|]. intros H.
    exfalso. apply H. left. symmetry. exact Hx.
  - apply String.eqb_neq in Hx. rewrite lookup_None. split.
    + intros H [Heq|Hin]; [apply Hx; symmetry; exact Heq | tauto].
    + tauto.
Qed.

Lemma find_Ok_column (df : DataFrame) (name : string) (mn mx : Q)
  (r : WindowResult) :
  find_min_std_window df name mn mx = Ok r ->
  exists col, column df name = Some col.
Proof.
  unfold find_min_std_window. destruct (column df name) as [col|]; eauto.
  discriminate.
Qed.

(** ** Returned windows *)

(** The realized duration of a returned window is within 1% of the returned
    window length (the part of the duration property that holds for every
    input). *)
Lemma duration_within_tolerance (df : DataFrame) (name : string) (mn mx : Q)
  (r : WindowResult) :
  find_min_std_window df name mn mx = Ok r ->
  Qabs (nth (end_index r - 1) (X_Value df) 0
        - nth (start_index r) (X_Value df) 0 - achieved_length r)
  <= achieved_length r * 0.01.
Proof.
  intros H. destruct (find_Ok_column _ _ _ _ _ H) as [col Hcol].
  destruct (find_Ok_inv _ _ _ _ _ _ Hcol H)
    as (L & i & e & ps1 & ps2 & v & _ & Hvalid & _ & -> & _).
  simpl. replace (e + 1 - 1)%nat with e by lia. apply Hvalid.
Qed.

(** C1, at an input the duration property fails on: with 1.5 and 3 as the
    bounds the scan also tries the length 3.5, and on three samples 1.75 s
    apart that is the only length with a valid window, so the returned
    window length is 3.5, above the given maximum. *)
Theorem returned_length_above_max :
  exists r, find_min_std_window sparse "v" 1.5 3 = Ok r /\
            start_index r = 0%nat /\ end_index r = 3%nat /\
            achieved_length r == 3.5 /\
            ~ achieved_length r <= 3.
Proof.
  eexists. split; [vm_compute; reflexivity|]. simpl.
  split; [reflexivity|]. split; [reflexivity|]. split; [reflexivity|].
  intros H. apply H. reflexivity.
Qed.



(** C8: on time 0..5 with the channel 10,10,10,20,20,20 and both bounds 2,
    the call returns the window that starts at index 0 and ends (exclusive)
    at index 3, with standard deviation 0. *)
Theorem plateau_example :
  exists r, find_min_std_window plateau "v" 2 2 = Ok r /\
            start_index r = 0%nat /\ end_index r = 3%nat /\
            fval_eq (std_dev r) (Sqrt 0) /\
            achieved_length r == 2.
Proof.
  eexists. split; [vm_compute; reflexivity|]. simpl. repeat split.
Qed.

(** C9: the fixed-size branch computes, from any state of the locals, what
    the variable-length scan computes over the single length; so a call with
    both bounds [w] returns what the variable-length scan restricted to [w]
    returns. *)
Theorem fixed_branch_is_single_length_scan (df : DataFrame) (name : string)
  (w : Q) :
  (forall col st, fixed_branch df col w st = scan_lengths df col [w] st) /\
  find_min_std_window df name w w =
  match column df name with
  | None => Err UnknownChannel
  | Some col => finish (scan_lengths df col [w] initial)
  end.
Proof.
  split; [intros col st; apply fixed_branch_scan_lengths|].
  unfold find_min_std_window. destruct (column df name) as [col|]; auto.
  replace (Qgt_bool w w) with false
    by (symmetry; apply Qgt_bool_false, Qle_refl).
  replace (Qeq_bool w w) with true
    by (symmetry; apply Qeq_bool_iff; reflexivity).
  rewrite fixed_branch_scan_lengths. reflexivity.
Qed.

(** C7, at an input it fails on: the channel is checked first, so a call
    with an unknown channel and with 10 and 5 as the bounds fails with
    [UnknownChannel], not with [InvalidRange]. *)
Lemma unknown_channel_before_invalid_range :
  5 < 10 /\
  find_min_std_window plateau "w" 10 5 = Err UnknownChannel /\
  find_min_std_window plateau "w" 10 5 <> Err InvalidRange.
Proof.
  split; [reflexivity|]. split; [reflexivity|]. discriminate.
Qed.

(** C7 as amended: an unknown channel fails with [UnknownChannel] whatever
    the bounds are; a known channel with [min_length > max_length] fails
    with [InvalidRange]; both whatever the data is, so also where the scan
    itself would raise. *)
Theorem validation_errors (df : DataFrame) (name : string) (mn mx : Q) :
  (~ In name (columns df) ->
   find_min_std_window df name mn mx = Err UnknownChannel) /\
  (In name (columns df) -> mx < mn ->
   find_min_std_window df name mn mx = Err InvalidRange).
Proof.
  unfold find_min_std_window. split.
  - intros H. apply column_None in H. rewrite H. reflexivity.
  - intros Hin Hlt. destruct (column df name) as [col|] eqn:Hcol.
    + apply Qgt_bool_true in Hlt. rewrite Hlt. reflexivity.
    + apply column_None in Hcol. contradiction.
Qed.

(** The checks come first: with both bounds -1 a known channel reaches the
    scan, where [.index[-1]] raises on the empty index, and an unknown
    channel does not. *)
Example validation_precedes_scan :
  find_min_std_window plateau "v" (-1) (-1) = Err IndexError /\
  find_min_std_window plateau "w" (-1) (-1) = Err UnknownChannel.
Proof. split; reflexivity. Qed.

Lemma validation_errors_witness :
  find_min_std_window plateau "w" 2 2 = Err UnknownChannel /\
  find_min_std_window plateau "v" (-1) (-2) = Err InvalidRange.
Proof.
  split.
  - apply (proj1 (validation_errors plateau "w" 2 2)).
    simpl. intros [H|[H|[]]]; discriminate H.
  - apply (proj2 (validation_errors plateau "v" (-1) (-2))).
    + simpl. right. left. reflexivity.
    + reflexivity.
Defined.

(** ** What an iteration records *)



Lemma fval_ltb_Sqrt (a b : fval) :
  fval_ltb a b = true -> exists v, a = Sqrt v.
Proof. destruct a; simpl; try discriminate. eauto. Qed.

(** ** Properties of the search *)





(** ** The lengths a call scans *)







(** ** No valid window *)

(** C6, at an input it fails on: on three samples one second apart whose
    channel has no value, the window of length 2 that starts at index 0
    passes both filters, and the call still fails with [NoValidWindow]. *)
Lemma no_valid_window_with_a_candidate :
  find_min_std_window blank "v" 2 2 = Err NoValidWindow /\
  In 2 (candidate_lengths 2 2) /\
  valid_window blank 2 0 2.
Proof.
  split; [reflexivity|]. split; [left; reflexivity|].
  assert (H : candidate blank [None; None; None] 2 0
              = Ok (Some {| min_std := NaN; best_start_idx := 0;
                            best_end_idx := 2; best_window_size := 2 |}))
    by reflexivity.
  apply candidate_valid in H; [|unfold len; simpl; lia].
  destruct H as (e & Hv & He). injection He as _ <-. exact Hv.
Qed.

(** ** Slices *)


(** ** The grid of subplots *)

Lemma plot_loop_ok (axs : axes_array) (rows : nat) (colunas : list string)
  (idx : nat) (done : list plot_action) :
  (forall i, (i < rows * n_colunas)%nat ->
     (if (1 <? rows)%nat then getitem2 axs (i / n_colunas) (i mod n_colunas)
      else getitem1 axs (i mod n_colunas)) = inl (cell i)) ->
  (idx + length colunas <= rows * n_colunas)%nat ->
  plot_loop axs rows idx colunas done
  = (done ++ map (fun p => Plot (cell (fst p)) (snd p))
                 (combine (seq idx (length colunas)) colunas), None).
Proof.
  intros Hget. revert idx done.
  induction colunas as [|c colunas IH]; intros idx done Hlen.
  - simpl. rewrite app_nil_r. reflexivity.
  - cbn [length] in Hlen. cbn [plot_loop length seq combine map fst snd].
    rewrite Hget by lia. rewrite IH by lia.
    rewrite <- app_assoc. reflexivity.
Qed.

Lemma delete_loop_ok (rows : nat) (idxs : list nat) (done : list plot_action) :
  (forall i, In i idxs -> (i < rows * n_colunas)%nat) ->
  delete_loop (Axes2D rows n_colunas) idxs done
  = (done ++ map (fun i => Delaxes (cell i)) idxs, None).
Proof.
  revert done. induction idxs as [|i idxs IH]; intros done H.
  - simpl. rewrite app_nil_r. reflexivity.
  - cbn [delete_loop getitem2 map].
    assert (Hi : (i < rows * n_colunas)%nat) by (apply H; left; reflexivity).
    assert (Hrow : (i / n_colunas <? rows)%nat = true).
    { apply Nat.ltb_lt. apply Nat.Div0.div_lt_upper_bound.
      unfold n_colunas in *. lia. }
    assert (Hcol : (i mod n_colunas <? n_colunas)%nat = true).
    { apply Nat.ltb_lt. apply Nat.mod_upper_bound. discriminate. }
    rewrite Hrow, Hcol. cbn [andb]. rewrite IH.
    + rewrite <- app_assoc. reflexivity.
    + intros j Hj. apply H. right. exact Hj.
Qed.

Lemma list_prod_app_l {A B : Type} (l1 l2 : list A) (l : list B) :
  list_prod (l1 ++ l2) l = list_prod l1 l ++ list_prod l2 l.
Proof.
  induction l1 as [|a l1 IH]; simpl; auto.
  rewrite IH, app_assoc. reflexivity.
Qed.

(** The indices 0, 1, 2, ... name the cells of the grid row by row. *)
Lemma cells_row_major (rows : nat) :
  map cell (seq 0 (rows * n_colunas))
  = list_prod (seq 0 rows) (seq 0 n_colunas).
Proof.
  induction rows as [|r IH].
  - reflexivity.
  - replace (S r * n_colunas)%nat with (r * n_colunas + 2)%nat
      by (unfold n_colunas; lia).
    rewrite seq_app, map_app, IH.
    rewrite (seq_S r 0), list_prod_app_l. f_equal.
    cbn [seq map list_prod app Nat.add]. unfold cell, n_colunas.
    replace (r * 2)%nat with (0 + r * 2)%nat at 1 2 by lia.
    replace (S (r * 2))%nat with (1 + r * 2)%nat by lia.
    rewrite !Nat.div_add, !Nat.Div0.mod_add by discriminate.
    reflexivity.
Qed.

Lemma combine_map_cell (idxs : list nat) (colunas : list string) :
  map (fun p => Plot (cell (fst p)) (snd p)) (combine idxs colunas)
  = map (fun p => Plot (fst p) (snd p)) (combine (map cell idxs) colunas).
Proof.
  revert colunas. induction idxs as [|i idxs IH]; intros [|c colunas];
    simpl; auto.
  rewrite IH. reflexivity.
Qed.

Lemma firstn_seq_le (n a len : nat) :
  (n <= len)%nat -> firstn n (seq a len) = seq a n.
Proof.
  intros H. replace len with (n + (len - n))%nat by lia.
  rewrite seq_app, firstn_app, length_seq, Nat.sub_diag, firstn_O, app_nil_r.
  apply firstn_all2. rewrite length_seq. lia.
Qed.

Lemma n_linhas_cells (colunas : list string) :
  (n_linhas colunas * n_colunas
   = length colunas + length colunas mod 2)%nat.
Proof.
  unfold n_linhas, n_colunas.
  pose proof (Nat.div_mod_eq (length colunas + 1) 2) as Hd.
  pose proof (Nat.mod_upper_bound (length colunas + 1) 2) as Hm.
  pose proof (Nat.div_mod_eq (length colunas) 2) as Hd'.
  pose proof (Nat.mod_upper_bound (length colunas) 2) as Hm'.
  lia.
Qed.

(** X9: With two names or more, every axes of the grid is used exactly once:
    the names are plotted on the cells of the grid in row-major order, and
    the cell left over, if the number of names is odd, is deleted; no
    exception is raised. *)
Theorem subplot_layout_partition (colunas : list string) :
  (2 <= length colunas)%nat ->
  let n := length colunas in
  let cells := list_prod (seq 0 (n_linhas colunas)) (seq 0 n_colunas) in
  subplot_layout colunas
  = (map (fun p => Plot (fst p) (snd p)) (combine (firstn n cells) colunas)
     ++ map Delaxes (skipn n cells), None) /\
  firstn n cells ++ skipn n cells = cells /\
  length (skipn n cells) = (n mod 2)%nat.
Proof.
  intros Hn n cells.
  pose proof (n_linhas_cells colunas) as Hcells. fold n in Hcells.
  assert (Hfirst : firstn n cells = map cell (seq 0 n)).
  { unfold cells. rewrite <- cells_row_major, firstn_map, firstn_seq_le.
    - reflexivity.
    - lia. }
  assert (Hskip : skipn n cells
                  = map cell (seq n (n_linhas colunas * n_colunas - n))).
  { unfold cells. rewrite <- cells_row_major, skipn_map, skipn_seq.
    reflexivity. }
  split; [|split].
  - rewrite Hfirst, Hskip, <- combine_map_cell, map_map.
    unfold subplot_layout, subplots. fold n.
    assert (Hrows : (1 <= n_linhas colunas)%nat).
    { unfold n_colunas in Hcells. lia. }
    destruct (n_linhas colunas =? 0)%nat eqn:H0;
      [apply Nat.eqb_eq in H0; lia|].
    destruct (n_linhas colunas =? 1)%nat eqn:H1.
    + apply Nat.eqb_eq in H1. rewrite H1 in *.
      rewrite plot_loop_ok.
      * replace (1 * n_colunas - n)%nat with 0%nat
          by (unfold n_colunas in *; lia).
        simpl. rewrite app_nil_r. reflexivity.
      * intros i Hi. change (1 <? 1)%nat with false. cbn [getitem1].
        replace (i mod n_colunas <? n_colunas)%nat with true
          by (symmetry; apply Nat.ltb_lt, Nat.mod_upper_bound; discriminate).
        unfold cell. rewrite (Nat.div_small i n_colunas) by lia.
        reflexivity.
      * unfold n_colunas in *. lia.
    + apply Nat.eqb_neq in H1.
      rewrite plot_loop_ok.
      * rewrite delete_loop_ok; [reflexivity|].
        intros i Hi. apply in_seq in Hi. lia.
      * intros i Hi.
        replace (1 <? n_linhas colunas)%nat with true
          by (symmetry; apply Nat.ltb_lt; lia).
        cbn [getitem2].
        replace (i / n_colunas <? n_linhas colunas)%nat with true.
        -- replace (i mod n_colunas <? n_colunas)%nat with true; auto.
           symmetry. apply Nat.ltb_lt, Nat.mod_upper_bound. discriminate.
        -- symmetry. apply Nat.ltb_lt, Nat.Div0.div_lt_upper_bound.
           unfold n_colunas in *. lia.
      * unfold n_colunas in *. lia.
  - apply firstn_skipn.
  - rewrite Hskip, length_map, length_seq. unfold n_colunas in *. lia.
Qed.

Lemma subplot_layout_partition_witness :
  let colunas := ["a"; "b"; "c"]%string in
  let n := length colunas in
  let cells := list_prod (seq 0 (n_linhas colunas)) (seq 0 n_colunas) in
  subplot_layout colunas
  = (map (fun p => Plot (fst p) (snd p)) (combine (firstn n cells) colunas)
     ++ map Delaxes (skipn n cells), None) /\
  firstn n cells ++ skipn n cells = cells /\
  length (skipn n cells) = (n mod 2)%nat.
Proof.
  intros colunas. apply (subplot_layout_partition colunas). simpl. lia.
Defined.

(** X10: With a single name the name is plotted on the first axes, and deleting
    the second one raises: the one-row figure has a one-dimensional array
    of axes, which the deleting loop indexes with two indices.  With no
    name at all [plt.subplots] is asked for no row and raises. *)
Theorem subplot_layout_small (coluna : string) :
  subplot_layout [coluna] = ([Plot (0%nat, 0%nat) coluna], Some AxesIndexError) /\
  subplot_layout [] = ([], Some RowsValueError).
Proof. split; reflexivity. Qed.

(** ** The header of the file *)

Lemma header_end_loop_few (lines : list string) (i c : nat) :
  (length (filter (contains End_of_Header) lines) + c < 2)%nat ->
  header_end_loop lines i c = 0%nat.
Proof.
  revert i c. induction lines as [|l lines IH]; intros i c H; simpl; auto.
  simpl in H. destruct (contains End_of_Header l).
  - simpl in H. destruct (c + 1 =? 2)%nat eqn:Hc.
    + apply Nat.eqb_eq in Hc. lia.
    + apply IH. lia.
  - apply IH. exact H.
Qed.

Lemma header_end_loop_skip (pre rest : list string) (i c : nat) :
  filter (contains End_of_Header) pre = [] ->
  header_end_loop (pre ++ rest) i c
  = header_end_loop rest (i + length pre) c.
Proof.
  revert i. induction pre as [|l pre IH]; intros i H; simpl.
  - rewrite Nat.add_0_r. reflexivity.
  - simpl in H. destruct (contains End_of_Header l); [discriminate|].
    rewrite IH by exact H. f_equal. lia.
Qed.

(** X12: With fewer than two lines that hold the marker the header end stays 0,
    so the column names are read from the first line of the file.  With two
    or more it is the index after the second such line, so the column names
    are read from the line that follows the second marker line, and reading
    them raises [IndexError] exactly when no line follows. *)
Theorem header_end_idx_spec (lines : list string) :
  ((length (filter (contains End_of_Header) lines) < 2)%nat ->
   header_end_idx lines = 0%nat /\
   column_names_line lines = nth_error lines 0) /\
  (forall pre m1 mid m2 post,
     lines = pre ++ m1 :: mid ++ m2 :: post ->
     filter (contains End_of_Header) pre = [] ->
     contains End_of_Header m1 = true ->
     filter (contains End_of_Header) mid = [] ->
     contains End_of_Header m2 = true ->
     header_end_idx lines = (length pre + length mid + 2)%nat /\
     column_names_line lines = nth_error post 0).
Proof.
  split.
  - intros H. assert (H0 : header_end_idx lines = 0%nat).
    { apply header_end_loop_few. lia. }
    split; auto. unfold column_names_line. rewrite H0. reflexivity.
  - intros pre m1 mid m2 post -> Hpre Hm1 Hmid Hm2.
    assert (Hidx : header_end_idx (pre ++ m1 :: mid ++ m2 :: post)
                   = (length pre + length mid + 2)%nat).
    { unfold header_end_idx. rewrite header_end_loop_skip by exact Hpre.
      cbn [header_end_loop]. rewrite Hm1. cbn [Nat.add Nat.eqb].
      rewrite header_end_loop_skip by exact Hmid.
      cbn [header_end_loop]. rewrite Hm2. cbn [Nat.add Nat.eqb]. lia. }
    split; auto. unfold column_names_line. rewrite Hidx.
    replace (length pre + length mid + 2)%nat
      with (length pre + S (length mid + 1))%nat by lia.
    rewrite nth_error_app2 by lia.
    replace (length pre + S (length mid + 1) - length pre)%nat
      with (S (length mid + 1)) by lia.
    cbn [nth_error]. rewrite nth_error_app2 by lia.
    replace (length mid + 1 - length mid)%nat with 1%nat by lia.
    reflexivity.
Qed.

Lemma header_end_idx_spec_witness :
  let lines := ["Date 01/02/2024"; "***End_of_Header***"; "Channels 2";
                "***End_of_Header***"; "X_Value"; "0,5"]%string in
  ((length (filter (contains End_of_Header) lines) < 2)%nat ->
   header_end_idx lines = 0%nat /\
   column_names_line lines = nth_error lines 0) /\
  (header_end_idx lines = (1 + 1 + 2)%nat /\
   column_names_line lines = nth_error ["X_Value"; "0,5"]%string 0).
Proof.
  intros lines. split.
  - apply (proj1 (header_end_idx_spec lines)).
  - apply (proj2 (header_end_idx_spec lines)
             ["Date 01/02/2024"%string] "***End_of_Header***"%string
             ["Channels 2"%string] "***End_of_Header***"%string
             ["X_Value"; "0,5"]%string); reflexivity.
Defined.

Lemma date_loop_after_header (strip : string -> string)
  (lines : list string) (d : option string) :
  date_loop strip lines true d = d.
Proof.
  induction lines as [|l lines IH]; simpl; auto.
  destruct (contains End_of_Header l); auto.
Qed.

Lemma date_loop_app (strip : string -> string) (pre rest : list string)
  (m : string) (b : bool) (d : option string) :
  contains End_of_Header m = true ->
  date_loop strip (pre ++ m :: rest) b d = date_loop strip pre b d.
Proof.
  intros Hm. revert b d. induction pre as [|l pre IH]; intros b d.
  - cbn [app date_loop]. rewrite Hm. apply date_loop_after_header.
  - cbn [app date_loop]. destruct (contains End_of_Header l); auto.
    destruct (negb b); auto.
    destruct (contains "Date" l); auto.
    destruct (parse_date strip l); auto.
Qed.

(** X13: The date is looked for only above the first line that holds the
    marker: that line and everything below it change nothing. *)
Theorem date_read_above_first_marker (strip : string -> string)
  (pre post : list string) (m : string) :
  contains End_of_Header m = true ->
  data_teste strip (pre ++ m :: post) = data_teste strip pre.
Proof. intros Hm. apply date_loop_app. exact Hm. Qed.

Lemma date_read_above_first_marker_witness :
  data_teste ascii_strip
    (["Date 01/02/2024"%string] ++ "***End_of_Header***"%string
       :: ["Date 03/04/2025"%string; "***End_of_Header***"%string])
  = data_teste ascii_strip ["Date 01/02/2024"%string].
Proof.
  apply (date_read_above_first_marker ascii_strip
           ["Date 01/02/2024"%string] ["Date 03/04/2025"; "***End_of_Header***"]%string
           "***End_of_Header***"%string).
  reflexivity.
Defined.

Lemma append_nil_r (s : string) : (s ++ "")%string = s.
Proof. induction s as [|c s IH]; simpl; [|rewrite IH]; reflexivity. Qed.

Lemma append_assoc (s1 s2 s3 : string) :
  ((s1 ++ s2) ++ s3)%string = (s1 ++ (s2 ++ s3))%string.
Proof. induction s1 as [|c s1 IH]; simpl; [|rewrite IH]; reflexivity. Qed.

Lemma str_split_from_cons (sep : string) (skip : nat) (cur s : string) :
  exists p ps, str_split_from sep skip cur s = p :: ps.
Proof.
  revert skip cur. induction s as [|c s IH]; intros skip cur.
  - simpl. eauto.
  - cbn [str_split_from]. destruct skip as [|k]; [|apply IH].
    destruct (String.prefix sep (String c s)); [eauto | apply IH].
Qed.

(** Splitting at a character and joining with it gives the string back. *)
Lemma join_split_char (c : Ascii.ascii) (s cur : string) :
  String.concat (String c "") (str_split_from (String c "") 0 cur s)
  = (cur ++ s)%string.
Proof.
  revert cur. induction s as [|ch s IH]; intros cur.
  - simpl. symmetry. apply append_nil_r.
  - cbn [str_split_from String.prefix String.length Nat.sub].
    destruct (Ascii.ascii_dec c ch) as [<-|Hne].
    + replace (String.prefix "" s) with true by (destruct s; reflexivity).
      destruct (str_split_from_cons (String c "") 0 "" s) as (p & ps & Hp).
      pose proof (IH ""%string) as IH0. rewrite Hp in *.
      change (String.concat (String c "") (cur :: p :: ps))
        with (cur ++ String c "" ++ String.concat (String c "") (p :: ps))%string.
      rewrite IH0. reflexivity.
    + rewrite IH, append_assoc. reflexivity.
Qed.

Lemma parse_date_inv (strip : string -> string) (line d : string) :
  parse_date strip line = Some d ->
  exists piece,
    nth_error (str_split "Date" (strip line)) 1 = Some piece /\
    d = strip piece /\
    length (str_split "/" d) = 3%nat.
Proof.
  unfold parse_date.
  destruct (nth_error (str_split "Date" (strip line)) 1) as [piece|];
    [|discriminate].
  destruct (str_split "/" (strip piece)) as [|p0 [|p1 [|p2 [|p3 ps]]]] eqn:Hs;
    try discriminate.
  intros H. injection H as <-. exists piece. split; auto.
  assert (Hd : (p0 ++ "/" ++ p1 ++ "/" ++ p2)%string = strip piece).
  { assert (Hj : String.concat "/" (str_split "/" (strip piece))
                 = ("" ++ strip piece)%string)
      by apply join_split_char.
    rewrite Hs in Hj. exact Hj. }
  cbn [String.append] in Hd |- *. rewrite Hd, Hs. split; reflexivity.
Qed.

Lemma date_loop_inv (strip : string -> string) (lines : list string)
  (b : bool) (d0 : option string) (d : string) :
  date_loop strip lines b d0 = Some d ->
  d0 = Some d \/
  exists line,
    In line lines /\ contains End_of_Header line = false /\
    contains "Date" line = true /\ parse_date strip line = Some d.
Proof.
  revert b d0. induction lines as [|l lines IH]; intros b d0 H.
  - left. exact H.
  - cbn [date_loop] in H.
    assert (Hrec : forall b' d', date_loop strip lines b' d' = Some d ->
              d' = Some d \/
              exists line,
                In line (l :: lines) /\ contains End_of_Header line = false /\
                contains "Date" line = true /\ parse_date strip line = Some d).
    { intros b' d' H'. destruct (IH b' d' H') as [->|(line & Hin & Hrest)];
        auto. right. exists line. split; [right; exact Hin | exact Hrest]. }
    destruct (contains End_of_Header l) eqn:Hm; [apply (Hrec _ _ H)|].
    destruct (negb b); [|apply (Hrec _ _ H)].
    destruct (contains "Date" l) eqn:Hd; [|apply (Hrec _ _ H)].
    destruct (parse_date strip l) as [d1|] eqn:Hp; [|apply (Hrec _ _ H)].
    destruct (Hrec _ _ H) as [Heq|Hex]; auto.
    injection Heq as ->. right. exists l. split; [left; reflexivity|].
    auto.
Qed.

(** X14: A date that is returned is, unchanged, the stripped text that follows
    the first [Date] of a line of the file that does not hold the marker,
    and it has exactly three parts between slashes: the parts are put back
    together as they were read, neither reordered nor checked. *)
Theorem date_is_text_after_Date (strip : string -> string)
  (lines : list string) (d : string) :
  data_teste strip lines = Some d ->
  exists line piece,
    In line lines /\
    contains End_of_Header line = false /\
    contains "Date" line = true /\
    nth_error (str_split "Date" (strip line)) 1 = Some piece /\
    d = strip piece /\
    length (str_split "/" d) = 3%nat.
Proof.
  intros H. apply date_loop_inv in H.
  destruct H as [H|(line & Hin & Hm & Hd & Hp)]; [discriminate|].
  apply parse_date_inv in Hp. destruct Hp as (piece & Hp).
  exists line, piece. auto.
Qed.

Lemma date_is_text_after_Date_witness :
  exists line piece,
    In line ["Operator x"; "Date	ab/cd/ef "; "***End_of_Header***"]%string /\
    contains End_of_Header line = false /\
    contains "Date" line = true /\
    nth_error (str_split "Date" (ascii_strip line)) 1 = Some piece /\
    "ab/cd/ef"%string = ascii_strip piece /\
    length (str_split "/" "ab/cd/ef") = 3%nat.
Proof.
  apply (date_is_text_after_Date ascii_strip
           ["Operator x"; "Date	ab/cd/ef "; "***End_of_Header***"]%string
           "ab/cd/ef").
  reflexivity.
Defined.

(** ** The report *)





(** * The search over any arithmetic *)

Section AnyArithmetic.

Variable A : arith.

(** ** Loops *)

Lemma g_for_each_app {X St : Type} (xs ys : list X)
  (body : St -> X -> outcome St) (st : St) :
  g_for_each (xs ++ ys) body st =
  match g_for_each xs body st with
  | Returns st' => g_for_each ys body st'
  | Raises e => Raises e
  end.
Proof.
  revert st. induction xs as [|x xs IH]; intros st; simpl; auto.
  destruct (body st x); auto.
Qed.

Lemma g_for_each_map {X Y St : Type} (f : X -> Y) (xs : list X)
  (body : St -> Y -> outcome St) (st : St) :
  g_for_each (map f xs) body st = g_for_each xs (fun s a => body s (f a)) st.
Proof.
  revert st. induction xs as [|x xs IH]; intros st; simpl; auto.
  destruct (body st (f x)); auto.
Qed.

Lemma g_for_each_ext {X St : Type} (xs : list X)
  (f g : St -> X -> outcome St) :
  (forall s a, f s a = g s a) ->
  forall st, g_for_each xs f st = g_for_each xs g st.
Proof.
  intros H. induction xs as [|x xs IH]; intros st; simpl; auto.
  rewrite H. destruct (g st x); auto.
Qed.

Lemma g_for_each_nest {X Y St : Type} (xs : list X) (ys : list Y)
  (body : X -> St -> Y -> outcome St) (st : St) :
  g_for_each xs (fun s x => g_for_each ys (body x) s) st =
  g_for_each (list_prod xs ys) (fun s p => body (fst p) s (snd p)) st.
Proof.
  revert st. induction xs as [|x xs IH]; intros st; simpl; auto.
  rewrite g_for_each_app, g_for_each_map. simpl.
  destruct (g_for_each ys (body x) st); auto.
Qed.

(** ** The last label *)

Lemma g_last_label_app_one (l : list nat) (x : nat) :
  g_last_label (l ++ [x]) = Returns x.
Proof. unfold g_last_label. rewrite rev_app_distr. reflexivity. Qed.

Lemma g_last_label_filter_seq (P : nat -> bool) (n e : nat) :
  g_last_label (filter P (seq 0 n)) = Returns e <->
  (e < n)%nat /\ P e = true /\ forall j, (e < j < n)%nat -> P j = false.
Proof.
  induction n as [|n IH].
  - simpl. split; [discriminate | lia].
  - rewrite seq_S, filter_app. simpl. destruct (P n) eqn:Hn.
    + rewrite g_last_label_app_one. split.
      * intros H. injection H as <-. repeat split; auto; lia.
      * intros (Hlt & He & Hlast).
        destruct (Nat.eq_dec e n) as [->|Hne]; auto.
        rewrite Hlast in Hn by lia. discriminate.
    + rewrite app_nil_r, IH. split.
      * intros (Hlt & He & Hlast). repeat split; auto.
        intros j Hj. destruct (Nat.eq_dec j n) as [->|]; auto.
        apply Hlast. lia.
      * intros (Hlt & He & Hlast).
        assert (e <> n) by congruence.
        repeat split; auto; try lia. intros j Hj. apply Hlast. lia.
Qed.

Lemma g_last_label_filter_seq_Raises (P : nat -> bool) (n : nat)
  (err : g_error) :
  g_last_label (filter P (seq 0 n)) = Raises err <->
  err = G_IndexError /\ forall j, (j < n)%nat -> P j = false.
Proof.
  induction n as [|n IH].
  - simpl. unfold g_last_label. simpl. split.
    + intros H. injection H as <-. split; auto. intros j Hj. lia.
    + intros [-> _]. reflexivity.
  - rewrite seq_S, filter_app. simpl. destruct (P n) eqn:Hn.
    + rewrite g_last_label_app_one. split; [discriminate|].
      intros [_ H]. rewrite H in Hn by lia. discriminate.
    + rewrite app_nil_r, IH. split; intros [He H]; split; auto.
      intros j Hj. destruct (Nat.eq_dec j n) as [->|]; auto.
      apply H. lia.
Qed.

Lemma g_last_label_index_le (time : list (num A)) (x : num A) (e : nat) :
  g_last_label (g_index_le A time x) = Returns e <->
  g_last_at_or_before A time x e.
Proof. apply g_last_label_filter_seq. Qed.

(** ** One iteration *)

Lemma g_variable_body_offer (df : g_frame A) (col : list (entry A))
  (L : num A) (st : g_best A) (i : nat) :
  g_variable_body A df col L st i = g_offer st (g_candidate A df col L i).
Proof.
  unfold g_variable_body, g_candidate, g_offer, g_update, g_window_std.
  destruct (g_last_label _) as [e|err]; auto.
  destruct (_ <? 2)%Z; auto.
  destruct (fgt A _ _); auto.
  simpl. destruct (dev_ltb A _ _); auto.
Qed.

Lemma g_fixed_body_variable_body (df : g_frame A) (col : list (entry A))
  (L : num A) (st : g_best A) (i : nat) :
  g_fixed_body A df col L st i = g_variable_body A df col L st i.
Proof. reflexivity. Qed.

Lemma g_fixed_branch_scan_lengths (df : g_frame A) (col : list (entry A))
  (w : num A) (st : g_best A) :
  g_fixed_branch A df col w st = g_scan_lengths A df col [w] st.
Proof.
  unfold g_fixed_branch, g_scan_lengths. simpl.
  rewrite (g_for_each_ext _ _ _ (g_fixed_body_variable_body df col w)).
  destruct (g_for_each _ _ st); reflexivity.
Qed.

Lemma g_scan_lengths_pairs (df : g_frame A) (col : list (entry A))
  (Ls : list (num A)) (st : g_best A) :
  g_scan_lengths A df col Ls st =
  g_scan_pairs A df col (g_scan_order Ls (g_len df)) st.
Proof.
  unfold g_scan_lengths, g_scan_pairs, g_scan_order.
  apply (g_for_each_nest Ls (range (g_len df)) (g_variable_body A df col)).
Qed.

Lemma g_candidate_valid (df : g_frame A) (col : list (entry A)) (L : num A)
  (i : nat) (c : g_best A) :
  (i < g_len df)%nat ->
  (g_candidate A df col L i = Returns (Some c) <->
   exists e, g_valid_window A df L i e /\
             c = {| g_min_std := g_window_std A col i e;
                    g_best_start_idx := i;
                    g_best_end_idx := e;
                    g_best_window_size := L |}).
Proof.
  intros Hi. unfold g_candidate, g_valid_window. split.
  - destruct (g_last_label _) as [e|err] eqn:He; [|discriminate].
    apply g_last_label_index_le in He.
    destruct (_ <? 2)%Z eqn:H2; [discriminate|].
    destruct (fgt A _ _) eqn:Htol; [discriminate|].
    intros H. injection H as <-. exists e.
    apply Z.ltb_ge in H2. repeat split; auto; try apply He. lia.
  - intros (e & (_ & He & H2 & Htol) & ->).
    apply g_last_label_index_le in He. rewrite He.
    replace (_ <? 2)%Z with false by (symmetry; apply Z.ltb_ge; lia).
    rewrite Htol. reflexivity.
Qed.

(** An iteration raises exactly when no row is found, and then it is the
    [IndexError] of [.index[-1]]. *)
Lemma g_candidate_returns (df : g_frame A) (col : list (entry A)) (L : num A)
  (i : nat) :
  g_row_found A df L i <-> exists oc, g_candidate A df col L i = Returns oc.
Proof.
  unfold g_row_found, g_candidate, g_index_le, g_len.
  destruct (g_last_label _) as [e|err] eqn:He.
  - apply g_last_label_filter_seq in He. destruct He as (He & Hle & _).
    split.
    + intros _. destruct (_ <? 2)%Z; eauto. destruct (fgt A _ _); eauto.
    + intros _. exists e. auto.
  - apply g_last_label_filter_seq_Raises in He. destruct He as [_ Hnone].
    split.
    + intros (j & Hj & Hle). rewrite (Hnone j Hj) in Hle. discriminate.
    + intros [oc H]. discriminate.
Qed.

Lemma g_candidate_raises (df : g_frame A) (col : list (entry A)) (L : num A)
  (i : nat) (err : g_error) :
  g_candidate A df col L i = Raises err -> err = G_IndexError.
Proof.
  unfold g_candidate, g_index_le.
  destruct (g_last_label _) as [e|err'] eqn:He.
  - destruct (_ <? 2)%Z; [discriminate|].
    destruct (fgt A _ _); discriminate.
  - apply g_last_label_filter_seq_Raises in He. destruct He as [-> _].
    intros H. injection H as <-. reflexivity.
Qed.

(** ** The scan *)

Lemma g_scan_pairs_cons (df : g_frame A) (col : list (entry A))
  (p : num A * nat) (ps : list (num A * nat)) (st0 : g_best A) :
  g_scan_pairs A df col (p :: ps) st0 =
  match g_offer st0 (g_candidate A df col (fst p) (snd p)) with
  | Returns st' => g_scan_pairs A df col ps st'
  | Raises e => Raises e
  end.
Proof.
  unfold g_scan_pairs. simpl. rewrite g_variable_body_offer. reflexivity.
Qed.

Lemma g_scan_pairs_app (df : g_frame A) (col : list (entry A))
  (ps qs : list (num A * nat)) (st0 : g_best A) :
  g_scan_pairs A df col (ps ++ qs) st0 =
  match g_scan_pairs A df col ps st0 with
  | Returns st' => g_scan_pairs A df col qs st'
  | Raises e => Raises e
  end.
Proof. unfold g_scan_pairs. apply g_for_each_app. Qed.

Lemma g_scan_pairs_total (df : g_frame A) (col : list (entry A))
  (ps : list (num A * nat)) (st0 : g_best A) :
  (forall p, In p ps -> g_row_found A df (fst p) (snd p)) ->
  exists st, g_scan_pairs A df col ps st0 = Returns st.
Proof.
  revert st0. induction ps as [|p ps IH]; intros st0 H.
  - exists st0. reflexivity.
  - rewrite g_scan_pairs_cons.
    destruct (proj1 (g_candidate_returns df col _ _) (H p (or_introl eq_refl)))
      as [oc ->].
    destruct oc as [c|]; simpl; apply IH; intros q Hq; apply H; right; auto.
Qed.

Lemma g_scan_pairs_found (df : g_frame A) (col : list (entry A))
  (ps : list (num A * nat)) (st0 st : g_best A) :
  g_scan_pairs A df col ps st0 = Returns st ->
  forall p, In p ps -> g_row_found A df (fst p) (snd p).
Proof.
  revert st0. induction ps as [|p ps IH]; intros st0 H q Hq; [destruct Hq|].
  rewrite g_scan_pairs_cons in H.
  destruct (g_candidate A df col (fst p) (snd p)) as [oc|err] eqn:Hc;
    [|discriminate].
  destruct Hq as [<-|Hq].
  - apply (g_candidate_returns df col). eauto.
  - simpl in H. destruct oc as [c|]; apply (IH _ H q Hq).
Qed.

Lemma g_scan_pairs_raises (df : g_frame A) (col : list (entry A))
  (ps : list (num A * nat)) (st0 : g_best A) (err : g_error) :
  g_scan_pairs A df col ps st0 = Raises err -> err = G_IndexError.
Proof.
  revert st0. induction ps as [|p ps IH]; intros st0 H; [discriminate|].
  rewrite g_scan_pairs_cons in H.
  destruct (g_candidate A df col (fst p) (snd p)) as [oc|err'] eqn:Hc.
  - simpl in H. destruct oc as [c|]; apply (IH _ H).
  - simpl in H. injection H as <-. apply (g_candidate_raises _ _ _ _ _ Hc).
Qed.

Lemma g_scan_pairs_snoc (df : g_frame A) (col : list (entry A))
  (ps : list (num A * nat)) (p : num A * nat) (st0 : g_best A) :
  g_scan_pairs A df col (ps ++ [p]) st0 =
  match g_scan_pairs A df col ps st0 with
  | Returns st' => g_offer st' (g_candidate A df col (fst p) (snd p))
  | Raises e => Raises e
  end.
Proof.
  rewrite g_scan_pairs_app.
  destruct (g_scan_pairs A df col ps st0) as [st'|err]; auto.
  rewrite g_scan_pairs_cons.
  destruct (g_offer st' _); reflexivity.
Qed.


Hypothesis Hlaw : lawful A.

Lemma g_scan_pairs_inv (df : g_frame A) (col : list (entry A))
  (ps : list (num A * nat)) (st0 st : g_best A) :
  g_scan_pairs A df col ps st0 = Returns st ->
  (st = st0 /\
   forall p c, In p ps ->
     g_candidate A df col (fst p) (snd p) = Returns (Some c) ->
     dev_ltb A (g_min_std c) (g_min_std st0) = false)
  \/
  (exists ps1 p ps2,
     ps = ps1 ++ p :: ps2 /\
     g_candidate A df col (fst p) (snd p) = Returns (Some st) /\
     dev_ltb A (g_min_std st) (g_min_std st0) = true /\
     (forall p' c', In p' ps1 ->
        g_candidate A df col (fst p') (snd p') = Returns (Some c') ->
        dev_leb A (g_min_std c') (g_min_std st) = false) /\
     (forall p' c', In p' ps2 ->
        g_candidate A df col (fst p') (snd p') = Returns (Some c') ->
        dev_ltb A (g_min_std c') (g_min_std st) = false)).
Proof.
  revert st. induction ps as [|x ps IH] using rev_ind; intros st H.
  - injection H as <-. left. split; auto. intros p c [].
  - rewrite g_scan_pairs_snoc in H.
    destruct (g_scan_pairs A df col ps st0) as [st'|err] eqn:Hps;
      [|discriminate].
    specialize (IH st' eq_refl).
    destruct (g_candidate A df col (fst x) (snd x)) as [[c|]|err] eqn:Hx;
      simpl in H; [| |discriminate].
    + injection H as <-. unfold g_update.
      destruct (dev_ltb A (g_min_std c) (g_min_std st')) eqn:Hlt.
      * right. exists ps, x, []. split; [reflexivity|]. split; [exact Hx|].
        destruct IH as [[-> Hall] | (ps1 & p & ps2 & -> & Hp & Hp0 & H1 & H2)].
        -- split; [exact Hlt|]. split; [|intros p' c' []].
           intros p' c' Hin Hc'.
           destruct (dev_leb A (g_min_std c') (g_min_std c)) eqn:Hle; auto.
           pose proof (Hall p' c' Hin Hc') as Hf.
           rewrite (dev_le_lt_trans A Hlaw _ _ _ Hle Hlt) in Hf. discriminate.
        -- split.
           ++ apply (dev_le_lt_trans A Hlaw) with (b := g_min_std st'); auto.
              apply (dev_lt_le A Hlaw); auto.
           ++ split; [|intros p' c' []].
              intros p' c' Hin Hc'.
              destruct (dev_leb A (g_min_std c') (g_min_std c)) eqn:Hle; auto.
              pose proof (dev_le_lt_trans A Hlaw _ _ _ Hle Hlt) as Hlt'.
              apply in_app_or in Hin. destruct Hin as [Hin|[<-|Hin]].
              ** pose proof (H1 p' c' Hin Hc') as Hf.
                 rewrite (dev_lt_le A Hlaw _ _ Hlt') in Hf. discriminate.
              ** rewrite Hp in Hc'. injection Hc' as <-.
                 rewrite (dev_lt_irrefl A Hlaw) in Hlt'. discriminate.
              ** rewrite (H2 p' c' Hin Hc') in Hlt'. discriminate.
      * destruct IH as [[-> Hall] | (ps1 & p & ps2 & -> & Hp & Hp0 & H1 & H2)].
        -- left. split; auto. intros p' c' Hin Hc'.
           apply in_app_or in Hin. destruct Hin as [Hin|[<-|[]]]; eauto.
           rewrite Hx in Hc'. injection Hc' as <-. exact Hlt.
        -- right. exists ps1, p, (ps2 ++ [x]).
           split; [rewrite <- app_assoc; reflexivity|].
           repeat split; auto. intros p' c' Hin Hc'.
           apply in_app_or in Hin. destruct Hin as [Hin|[<-|[]]]; eauto.
           rewrite Hx in Hc'. injection Hc' as <-. exact Hlt.
    + injection H as <-.
      destruct IH as [[-> Hall] | (ps1 & p & ps2 & -> & Hp & Hp0 & H1 & H2)].
      * left. split; auto. intros p' c' Hin Hc'.
        apply in_app_or in Hin. destruct Hin as [Hin|[<-|[]]]; eauto.
        rewrite Hx in Hc'. discriminate.
      * right. exists ps1, p, (ps2 ++ [x]).
        split; [rewrite <- app_assoc; reflexivity|].
        repeat split; auto. intros p' c' Hin Hc'.
        apply in_app_or in Hin. destruct Hin as [Hin|[<-|[]]]; eauto.
        rewrite Hx in Hc'. discriminate.
Qed.


(** ** The call as one scan *)

Lemma g_find_scan (df : g_frame A) (name : string) (col : list (entry A))
  (mn mx : num A) (Ls : list (num A)) :
  g_column df name = Some col -> fgt A mn mx = false ->
  g_lengths A mn mx = Some Ls ->
  g_find_min_std_window A df name mn mx =
  g_finish A (g_scan_pairs A df col (g_scan_order Ls (g_len df)) (g_initial A)).
Proof.
  intros Hcol Hgt HLs. unfold g_find_min_std_window. rewrite Hcol, Hgt.
  unfold g_lengths in HLs. destruct (feq A mn mx).
  - injection HLs as <-.
    rewrite g_fixed_branch_scan_lengths, g_scan_lengths_pairs. reflexivity.
  - unfold g_variable_branch. rewrite HLs, g_scan_lengths_pairs. reflexivity.
Qed.

Lemma g_scan_order_In (Ls : list (num A)) (n : nat) (L : num A) (i : nat) :
  In (L, i) (g_scan_order Ls n) <-> In L Ls /\ (i < n)%nat.
Proof.
  unfold g_scan_order, range. rewrite in_prod_iff, in_seq. split.
  - intros [H1 H2]. split; auto. lia.
  - intros [H1 H2]. split; auto. lia.
Qed.

(** C6 as amended: with the channel present, the bounds in order and the
    lengths produced, the call fails with [NoValidWindow] exactly when no
    iteration raises and every window that passes both filters, as the
    program evaluates them, has a standard deviation that is not strictly
    below infinity; in particular when a row is always found and no window
    passes both filters. *)
Theorem no_valid_window_exactly (df : g_frame A) (name : string)
  (col : list (entry A)) (mn mx : num A) (Ls : list (num A)) :
  g_column df name = Some col -> fgt A mn mx = false ->
  g_lengths A mn mx = Some Ls ->
  (g_find_min_std_window A df name mn mx = Raises G_NoValidWindow <->
   (forall L i, In L Ls -> (i < g_len df)%nat -> g_row_found A df L i) /\
   (forall L i e, In L Ls -> g_valid_window A df L i e ->
      dev_ltb A (g_window_std A col i e) (infinity A) = false)) /\
  ((forall L i, In L Ls -> (i < g_len df)%nat -> g_row_found A df L i) ->
   (forall L i e, In L Ls -> ~ g_valid_window A df L i e) ->
   g_find_min_std_window A df name mn mx = Raises G_NoValidWindow).
Proof.
  intros Hcol Hgt HLs. rewrite (g_find_scan _ _ _ _ _ _ Hcol Hgt HLs).
  assert (Hiff :
    g_finish A (g_scan_pairs A df col (g_scan_order Ls (g_len df))
                  (g_initial A)) = Raises G_NoValidWindow <->
    (forall L i, In L Ls -> (i < g_len df)%nat -> g_row_found A df L i) /\
    (forall L i e, In L Ls -> g_valid_window A df L i e ->
       dev_ltb A (g_window_std A col i e) (infinity A) = false)).
  { split.
    - intros Hfin.
      destruct (g_scan_pairs A df col _ _) as [st|err] eqn:Hscan.
      + split.
        * intros L i HL Hi.
          apply (g_scan_pairs_found _ _ _ _ _ Hscan (L, i)).
          apply g_scan_order_In. auto.
        * intros L i e HL Hv.
          assert (Hi : (i < g_len df)%nat) by apply Hv.
          assert (Hc : g_candidate A df col L i
                       = Returns (Some {| g_min_std := g_window_std A col i e;
                                          g_best_start_idx := i;
                                          g_best_end_idx := e;
                                          g_best_window_size := L |})).
          { apply g_candidate_valid; auto. exists e. auto. }
          apply g_scan_pairs_inv in Hscan.
          destruct Hscan as [[-> Hall] | (ps1 & p & ps2 & _ & _ & Hlt & _)].
          -- assert (Hin : In (L, i) (g_scan_order Ls (g_len df)))
               by (apply g_scan_order_In; auto).
             exact (Hall (L, i) _ Hin Hc).
          -- simpl in Hfin. cbn [g_initial g_min_std] in Hlt.
             rewrite (dev_below_inf A Hlaw _ Hlt) in Hfin. discriminate.
      + simpl in Hfin. injection Hfin as ->.
        apply g_scan_pairs_raises in Hscan. discriminate.
    - intros [Hfound Hall].
      destruct (g_scan_pairs_total df col (g_scan_order Ls (g_len df))
                  (g_initial A)) as [st Hscan].
      { intros [L i] Hq. apply g_scan_order_In in Hq. simpl.
        apply Hfound; apply Hq. }
      rewrite Hscan. apply g_scan_pairs_inv in Hscan.
      destruct Hscan as [[-> _] | (ps1 & [L i] & ps2 & Hps & Hp & Hlt & _)].
      + simpl. rewrite (dev_inf_is_inf A Hlaw). reflexivity.
      + exfalso. simpl in Hp.
        assert (Hin : In (L, i) (g_scan_order Ls (g_len df))).
        { rewrite Hps. apply in_or_app. simpl. auto. }
        apply g_scan_order_In in Hin. destruct Hin as [HL Hi].
        apply g_candidate_valid in Hp; auto.
        destruct Hp as (e & Hv & ->). cbn [g_min_std g_initial] in Hlt.
        rewrite (Hall L i e HL Hv) in Hlt. discriminate. }
  split; [exact Hiff|].
  intros Hfound Hnone. apply Hiff. split; auto.
  intros L i e HL Hv. destruct (Hnone L i e HL Hv).
Qed.



Lemma g_valid_candidate (df : g_frame A) (col : list (entry A)) (L : num A)
  (i e : nat) :
  g_valid_window A df L i e ->
  g_candidate A df col L i
  = Returns (Some {| g_min_std := g_window_std A col i e;
                     g_best_start_idx := i;
                     g_best_end_idx := e;
                     g_best_window_size := L |}).
Proof.
  intros Hv. apply g_candidate_valid; [apply Hv|]. exists e. auto.
Qed.

End AnyArithmetic.

(** ** The exact model is an arithmetic *)

Lemma lawful_exact : lawful exact.
Proof.
  constructor; simpl.
  - apply fval_ltb_leb.
  - apply fval_leb_ltb_trans.
  - apply fval_ltb_irrefl.
  - intros a b x y Ha Hb Hle.
    destruct (fval_ltb_Sqrt _ _ Ha) as [p ->].
    destruct (fval_ltb_Sqrt _ _ Hb) as [q ->].
    simpl in *. unfold Qgt_bool. rewrite Hle. reflexivity.
  - intros a Ha. apply (fval_ltb_is_inf _ _ Ha).
  - reflexivity.
Qed.

(** In the exact model a length that is not negative always finds a row:
    the start itself. *)
Lemma exact_row_found (df : DataFrame) (L : Q) (i : nat) :
  0 <= L -> (i < len df)%nat -> g_row_found exact (exact_frame df) L i.
Proof.
  intros HL Hi. exists i. split; [exact Hi|].
  simpl. apply Qle_bool_iff.
  rewrite <- (Qplus_0_r (nth i (X_Value df) 0)) at 1.
  apply Qplus_le_r. exact HL.
Qed.

(** From a window that passes both filters to the end index the iteration
    computes: the candidate is evaluated and its end index read off. *)
Ltac window_end Hv col :=
  match type of Hv with
  | g_valid_window ?A ?df ?L ?i ?e =>
      let Hc := fresh "Hc" in
      pose proof (f_equal g_offered_end (g_valid_candidate A df col L i e Hv))
        as Hc;
      let k := eval vm_compute in (g_offered_end (g_candidate A df col L i)) in
      replace (g_offered_end (g_candidate A df col L i)) with k in Hc
        by (vm_compute; reflexivity);
      cbn [g_offered_end g_best_end_idx] in Hc;
      first [discriminate Hc | injection Hc as <-]
  end.



Lemma no_valid_window_exactly_witness :
  g_find_min_std_window exact (exact_frame blank) "v" 2 2
  = Raises G_NoValidWindow /\
  g_find_min_std_window exact (exact_frame brief) "v" 2 2
  = Raises G_NoValidWindow.
Proof.
  split.
  - apply (proj1 (no_valid_window_exactly exact lawful_exact
                    (exact_frame blank) "v" [None; None; None] 2 2 [2]
                    eq_refl eq_refl eq_refl)).
    split.
    + intros L i HL Hi. apply (exact_row_found blank); [|exact Hi].
      destruct HL as [<-|[]]. discriminate.
    + intros L i e HL Hv. destruct HL as [<-|[]].
      assert (Hi : (i < 3)%nat) by apply Hv.
      destruct i as [|[|[|i]]]; [| | |lia];
        window_end Hv [@None Q; None; None];
        vm_compute; reflexivity.
  - apply (proj2 (no_valid_window_exactly exact lawful_exact
                    (exact_frame brief) "v" [Some 1; Some 2; Some 3] 2 2 [2]
                    eq_refl eq_refl eq_refl)).
    + intros L i HL Hi. apply (exact_row_found brief); [|exact Hi].
      destruct HL as [<-|[]]. discriminate.
    + intros L i e HL Hv. destruct HL as [<-|[]].
      assert (Hi : (i < 3)%nat) by apply Hv.
      destruct i as [|[|[|i]]]; [| | |lia];
        window_end Hv [Some 1; Some 2; Some 3].
Defined.

Lemma lift_last_label (ix : list nat) :
  g_last_label ix = lift (fun j => j) (last_label ix).
Proof. unfold g_last_label, last_label. destruct (rev ix); reflexivity. Qed.

Lemma lift_variable_body (df : DataFrame) (col : list (option Q)) (L : Q)
  (st : best) (i : nat) :
  g_variable_body exact (exact_frame df) col L (lift_best st) i
  = lift lift_best (variable_body df col L st i).
Proof.
  unfold g_variable_body, variable_body.
  change (g_index_le exact (g_X_Value (exact_frame df)))
    with (index_le (X_Value df)).
  rewrite lift_last_label. cbn [exact_frame g_X_Value fzero fadd exact].
  destruct (last_label _) as [e|err]; [|reflexivity].
  cbn [lift]. destruct (_ <? 2)%Z; [reflexivity|].
  cbn [fgt fabs fsub fmul fhundredth exact].
  destruct (Qgt_bool _ _); [reflexivity|].
  cbn [dev_ltb std_of exact lift_best g_min_std].
  destruct (fval_ltb _ _); reflexivity.
Qed.

Lemma lift_for_each {X : Type} (xs : list X)
  (body : best -> X -> result best)
  (g_body : g_best exact -> X -> outcome (g_best exact)) (st : best) :
  (forall s x, g_body (lift_best s) x = lift lift_best (body s x)) ->
  g_for_each xs g_body (lift_best st) = lift lift_best (for_each xs body st).
Proof.
  intros H. revert st. induction xs as [|x xs IH]; intros st; simpl; auto.
  rewrite H. destruct (body st x) as [st'|err]; simpl; auto.
Qed.

Lemma lift_column (df : DataFrame) (name : string) :
  g_column (exact_frame df) name = column df name.
Proof.
  unfold g_column, column. destruct (String.eqb name "X_Value"); auto.
  cbn [exact_frame g_channels]. induction (channels df) as [|[k c] cs IH];
    simpl; auto.
  destruct (String.eqb name k); auto.
Qed.

(** The exact model is the search over [exact]: the two calls return the
    same window or raise the same exception. *)
Lemma exact_is_instance (df : DataFrame) (name : string) (mn mx : Q) :
  g_find_min_std_window exact (exact_frame df) name mn mx
  = lift lift_window (find_min_std_window df name mn mx).
Proof.
  unfold g_find_min_std_window, find_min_std_window.
  rewrite lift_column.
  destruct (column df name) as [col|]; [|reflexivity].
  cbn [fgt feq exact]. destruct (Qgt_bool mn mx); [reflexivity|].
  assert (Hfin : forall s,
            g_finish exact (lift lift_best s) = lift lift_window (finish s)).
  { intros [st|err]; simpl; auto. destruct (is_inf (min_std st)); reflexivity. }
  rewrite <- Hfin. f_equal.
  assert (Hinner : forall L s,
            g_for_each (range (len df))
              (g_variable_body exact (exact_frame df) col L) (lift_best s)
            = lift lift_best
                (for_each (range (len df)) (variable_body df col L) s)).
  { intros L s. apply lift_for_each. intros s' i. apply lift_variable_body. }
  destruct (Qeq_bool mn mx).
  - unfold g_fixed_branch, fixed_branch.
    change (g_len (exact_frame df)) with (len df).
    rewrite (g_for_each_ext _ _ _
               (g_fixed_body_variable_body exact (exact_frame df) col mn)).
    rewrite (for_each_ext _ _ _ (fixed_body_variable_body df col mn)).
    apply (Hinner mn initial).
  - unfold g_variable_branch, variable_branch, g_scan_lengths, scan_lengths.
    cbn [arange_of fadd fone exact].
    change (g_len (exact_frame df)) with (len df).
    change (arange mn (mx + 1) 1) with (window_sizes mn mx).
    apply (lift_for_each (window_sizes mn mx)
             (fun st L => for_each (range (len df)) (variable_body df col L) st)
             (fun st L => g_for_each (range (len df))
                            (g_variable_body exact (exact_frame df) col L) st)
             initial).
    intros s L. apply Hinner.
Qed.

(** ** The exceptions of the scan *)

(** X1: with the channel present, the bounds in order and the lengths
    produced, the call raises the [IndexError] of [.index[-1]] exactly when
    some iteration finds no row at or before its start time plus the
    length, as the program computes and compares them; when every
    iteration finds one, the call returns a window or fails with
    [NoValidWindow]. *)
Theorem index_error_exactly (A : arith) (df : g_frame A) (name : string)
  (col : list (entry A)) (mn mx : num A) (Ls : list (num A)) :
  g_column df name = Some col -> fgt A mn mx = false ->
  g_lengths A mn mx = Some Ls ->
  (g_find_min_std_window A df name mn mx = Raises G_IndexError <->
   ~ (forall L i, In L Ls -> (i < g_len df)%nat -> g_row_found A df L i)) /\
  ((forall L i, In L Ls -> (i < g_len df)%nat -> g_row_found A df L i) ->
   (exists r, g_find_min_std_window A df name mn mx = Returns r) \/
   g_find_min_std_window A df name mn mx = Raises G_NoValidWindow).
Proof.
  intros Hcol Hgt HLs. rewrite (g_find_scan _ _ _ _ _ _ _ Hcol Hgt HLs).
  assert (Hall : (forall L i, In L Ls -> (i < g_len df)%nat ->
                    g_row_found A df L i) ->
                 exists st, g_scan_pairs A df col (g_scan_order Ls (g_len df))
                              (g_initial A) = Returns st).
  { intros Hfound. apply g_scan_pairs_total. intros [L i] Hq.
    apply g_scan_order_In in Hq. simpl. apply Hfound; apply Hq. }
  split; [split|].
  - intros H Hfound. destruct (Hall Hfound) as [st Hst]. rewrite Hst in H.
    simpl in H. destruct (dev_is_inf A (g_min_std st)); discriminate.
  - intros Hnot.
    destruct (g_scan_pairs A df col _ _) as [st|err] eqn:Hscan.
    + exfalso. apply Hnot. intros L i HL Hi.
      apply (g_scan_pairs_found _ _ _ _ _ _ Hscan (L, i)).
      apply g_scan_order_In. auto.
    + apply g_scan_pairs_raises in Hscan. subst err. reflexivity.
  - intros Hfound. destruct (Hall Hfound) as [st ->]. simpl.
    destruct (dev_is_inf A (g_min_std st)); eauto.
Qed.

Lemma index_error_exactly_witness :
  g_find_min_std_window exact (exact_frame plateau) "v" (-1) (-1)
  = Raises G_IndexError /\
  ((exists r, g_find_min_std_window exact (exact_frame plateau) "v" 1 3
              = Returns r) \/
   g_find_min_std_window exact (exact_frame plateau) "v" 1 3
   = Raises G_NoValidWindow).
Proof.
  split.
  - apply (proj1 (index_error_exactly exact (exact_frame plateau) "v"
                    [Some 10; Some 10; Some 10; Some 20; Some 20; Some 20]
                    (-1) (-1) [-1] eq_refl eq_refl eq_refl)).
    intros Hfound.
    destruct (Hfound (-1) 0%nat (or_introl eq_refl)) as (j & Hj & Hle).
    + vm_compute. lia.
    + vm_compute in Hj.
      destruct j as [|[|[|[|[|[|j]]]]]]; try discriminate Hle. lia.
  - apply (proj2 (index_error_exactly exact (exact_frame plateau) "v"
                    [Some 10; Some 10; Some 10; Some 20; Some 20; Some 20]
                    1 3 (arange 1 (3 + 1) 1) eq_refl eq_refl eq_refl)).
    intros L i HL Hi. apply (exact_row_found plateau); [|exact Hi].
    vm_compute in HL. destruct HL as [<-|[<-|[<-|[]]]]; discriminate.
Defined.
